(** * CarController: the per-frame simulation step of the driving scene

    The repository holds three revisions of [CarController.useFrame]:
    - the bounded-terrain Lamborghini controller (world radius 400,
      [hasLanded] guard, ride height lerped to the ground hit);
    - the infinite-highway Lamborghini controller (steering clamped to
      +-PI/3, world scrolled with [+=], ride height pinned to 0);
    - the bounded-terrain Porsche controller (no [hasLanded] guard).

    JavaScript numbers are idealised as real numbers: rounding, infinities
    and NaN are outside this model.  The physical part of the frame callback
    (sections 1, 2, 3 and 5 of [useFrame]) is embedded; sections 4 (visual
    lean, wheel spin) and 6 (camera) only write to the model node, the wheels
    and the camera, which sections 1-3 and 5 never read; they are embedded
    as functions of their own ([visualPhysics], [porscheVisualPhysics],
    [cameraRig]), next to the input listeners, the cubes' integrator, the
    road recycling and the other components of the scene. *)

From Stdlib Require Import Reals Lra Bool List String.
From Stdlib Require Import Lia PeanoNat ZArith Permutation Ascii.
Import ListNotations.
Open Scope R_scope.

(** ** three.js helpers *)

Module MathUtils.

(** [MathUtils.clamp(value, min, max) = Math.max(min, Math.min(max, value))] *)
Definition clamp (value lo hi : R) : R := Rmax lo (Rmin hi value).

(** [MathUtils.lerp(x, y, t) = (1 - t) * x + t * y] *)
Definition lerp (x y t : R) : R := (1 - t) * x + t * y.

End MathUtils.

Module Vector3.

Record t : Type := mk { x : R; y : R; z : R }.

Definition zero : t := mk 0 0 0.

Definition add (a b : t) : t := mk (x a + x b) (y a + y b) (z a + z b).

Definition multiplyScalar (s : R) (a : t) : t := mk (x a * s) (y a * s) (z a * s).

Definition divideScalar (s : R) (a : t) : t := multiplyScalar (1 / s) a.

Definition length (a : t) : R := sqrt (x a * x a + y a * y a + z a * z a).

(** [normalize() = this.divideScalar(this.length() || 1)] *)
Definition normalize (a : t) : t :=
  divideScalar (if Req_dec_T (length a) 0 then 1 else length a) a.

Definition set_x (v : R) (a : t) : t := mk v (y a) (z a).
Definition set_y (v : R) (a : t) : t := mk (x a) v (z a).

End Vector3.

(** ** Inputs of a frame *)

(** The global [keys] record written by the keydown / keyup listeners. *)
Module Keys.

Record t : Type := mk
  { forward : bool; backward : bool; left : bool; right : bool; brake : bool }.

Definition none : t := mk false false false false false.

End Keys.

(** One entry of [raycaster.intersectObjects(worldRef.current.children, true)]:
    the name of the object hit, the hit point, and the face normal after
    [transformDirection(hit.object.matrixWorld)]. *)
Record Intersection : Type := mkIntersection
  { objectName : string; point : Vector3.t; normal : Vector3.t }.

(** [intersects.find(hit => hit.object.name === 'Terrain')] *)
Definition findTerrain (intersects : list Intersection) : option Intersection :=
  find (fun hit => String.eqb (objectName hit) "Terrain") intersects.

Record CubeState : Type := mkCube
  { position : Vector3.t; cubeVelocity : Vector3.t; fallen : bool }.

(** What the host hands to one call of the frame callback: the key state,
    the frame time, the result of the downward raycast from (0, 20, 0), and
    the effect of the [onRespawn] callback on the cubes. *)
Record Frame : Type := mkFrame
  { keys : Keys.t;
    delta : R;
    intersects : list Intersection;
    onRespawn : list CubeState -> list CubeState }.

(** ** State *)

Inductive Variant : Type :=
  | Bounded    (* bounded terrain, Lamborghini model *)
  | Highway    (* infinite highway, Lamborghini model *)
  | Porsche.   (* bounded terrain, Porsche model; no hasLanded ref *)

(** The refs of the component ([velocity], [steeringAngle], [isFalling],
    [hasLanded], [verticalVelocity]), the world anchor ([worldRef.current])
    and the car group ([carGroupRef.current]).  The Porsche revision has no
    [hasLanded] ref: there the field is never read nor written. *)
Record Sim : Type := mkSim
  { velocity : R;
    steeringAngle : R;
    isFalling : bool;
    hasLanded : bool;
    verticalVelocity : R;
    worldPosition : Vector3.t;
    worldRotation : Vector3.t;
    carPosition : Vector3.t;
    carRotation : Vector3.t }.

Definition set_velocity (v : R) (s : Sim) : Sim :=
  mkSim v (steeringAngle s) (isFalling s) (hasLanded s) (verticalVelocity s)
        (worldPosition s) (worldRotation s) (carPosition s) (carRotation s).
Definition set_steeringAngle (a : R) (s : Sim) : Sim :=
  mkSim (velocity s) a (isFalling s) (hasLanded s) (verticalVelocity s)
        (worldPosition s) (worldRotation s) (carPosition s) (carRotation s).
Definition set_isFalling (b : bool) (s : Sim) : Sim :=
  mkSim (velocity s) (steeringAngle s) b (hasLanded s) (verticalVelocity s)
        (worldPosition s) (worldRotation s) (carPosition s) (carRotation s).
Definition set_hasLanded (b : bool) (s : Sim) : Sim :=
  mkSim (velocity s) (steeringAngle s) (isFalling s) b (verticalVelocity s)
        (worldPosition s) (worldRotation s) (carPosition s) (carRotation s).
Definition set_verticalVelocity (v : R) (s : Sim) : Sim :=
  mkSim (velocity s) (steeringAngle s) (isFalling s) (hasLanded s) v
        (worldPosition s) (worldRotation s) (carPosition s) (carRotation s).
Definition set_worldPosition (p : Vector3.t) (s : Sim) : Sim :=
  mkSim (velocity s) (steeringAngle s) (isFalling s) (hasLanded s) (verticalVelocity s)
        p (worldRotation s) (carPosition s) (carRotation s).
Definition set_worldRotation (r : Vector3.t) (s : Sim) : Sim :=
  mkSim (velocity s) (steeringAngle s) (isFalling s) (hasLanded s) (verticalVelocity s)
        (worldPosition s) r (carPosition s) (carRotation s).
Definition set_carPosition (p : Vector3.t) (s : Sim) : Sim :=
  mkSim (velocity s) (steeringAngle s) (isFalling s) (hasLanded s) (verticalVelocity s)
        (worldPosition s) (worldRotation s) p (carRotation s).
Definition set_carRotation (r : Vector3.t) (s : Sim) : Sim :=
  mkSim (velocity s) (steeringAngle s) (isFalling s) (hasLanded s) (verticalVelocity s)
        (worldPosition s) (worldRotation s) (carPosition s) r.

(** ** Constants of the component *)

Definition maxSpeed : R := 1.2.
Definition acceleration : R := 0.02.
Definition deceleration : R := 0.012.
Definition friction : R := 0.985.
Definition turnSpeed : R := 0.05.
Definition gravity : R := 0.005.
Definition worldRadius : R := 400.

(** The mounted scene: refs at their [useRef] values, the world group at the
    origin, the car group at its JSX [position]. *)
Definition initial (v : Variant) : Sim :=
  mkSim 0 0 false false 0 Vector3.zero Vector3.zero
        (Vector3.mk 0 (match v with Porsche => 2 | _ => 1 end) 0)
        Vector3.zero.

(** ** 1. MOVEMENT PHYSICS *)

(** Throttle, brake and clamp, in the order of the source. *)
Definition updateVelocity (k : Keys.t) (vel : R) : R :=
  let vel :=
    if Keys.forward k then vel + acceleration
    else if Keys.backward k then vel - deceleration
    else vel * friction in
  let vel := if Keys.brake k then vel * 0.88 else vel in
  MathUtils.clamp vel (- maxSpeed * 0.5) maxSpeed.

(** Steering, evaluated on the velocity already updated in this frame. *)
Definition updateSteering (v : Variant) (k : Keys.t) (vel angle : R) : R :=
  if Rlt_dec 0.01 (Rabs vel) then
    let steerFactor := Rabs vel / maxSpeed in
    let dir := if Rlt_dec 0 vel then 1 else -1 in
    let angle := if Keys.left k then angle + turnSpeed * steerFactor * dir else angle in
    let angle := if Keys.right k then angle - turnSpeed * steerFactor * dir else angle in
    match v with
    | Highway => MathUtils.clamp angle (- PI / 3) (PI / 3)
    | _ => angle
    end
  else angle.

Definition movementPhysics (v : Variant) (k : Keys.t) (s : Sim) : Sim :=
  if negb (isFalling s) then
    let vel := updateVelocity k (velocity s) in
    set_steeringAngle (updateSteering v k vel (steeringAngle s)) (set_velocity vel s)
  else s.

(** ** 2. RELATIVE WORLD MOVEMENT *)

(** The world is moved, not the car; its rotation is reset every frame.
    The bounded revisions write [position.x -= moveX; position.z -= moveZ],
    the highway revision [position.x += moveX; position.z += moveZ]. *)
Definition relativeWorldMovement (v : Variant) (s : Sim) : Sim :=
  let moveX := sin (steeringAngle s) * velocity s in
  let moveZ := cos (steeringAngle s) * velocity s in
  let p := worldPosition s in
  let p :=
    match v with
    | Highway => Vector3.mk (Vector3.x p + moveX) (Vector3.y p) (Vector3.z p + moveZ)
    | _ => Vector3.mk (Vector3.x p - moveX) (Vector3.y p) (Vector3.z p - moveZ)
    end in
  set_worldRotation (Vector3.mk 0 0 0) (set_worldPosition p s).

(** [if (distFromCenter > worldRadius) isFalling.current = true]; the highway
    revision has no bound. *)
Definition checkBounds (v : Variant) (s : Sim) : Sim :=
  match v with
  | Highway => s
  | _ =>
      let worldPos := worldPosition s in
      let distFromCenter :=
        sqrt (Vector3.x worldPos * Vector3.x worldPos
              + Vector3.z worldPos * Vector3.z worldPos) in
      if Rlt_dec worldRadius distFromCenter then set_isFalling true s else s
  end.

(** ** 3. GROUND ALIGNMENT & FALLING *)

(** The probe: returns the state and [groundY] (initialised to -100). *)
Definition groundAlignment (v : Variant) (dt : R) (hits : list Intersection)
    (s : Sim) : Sim * R :=
  if negb (isFalling s) then
    match findTerrain hits with
    | Some groundHit =>
        let s := match v with Porsche => s | _ => set_hasLanded true s end in
        let currentY := steeringAngle s in
        let n := normal groundHit in
        let targetPitch := asin (Vector3.x n) in
        let targetRoll := - asin (Vector3.z n) in
        let currentEuler := carRotation s in
        (set_carRotation
           (Vector3.mk (MathUtils.lerp (Vector3.x currentEuler) targetPitch (dt * 5))
                       currentY
                       (MathUtils.lerp (Vector3.z currentEuler) targetRoll (dt * 5)))
           s,
         Vector3.y (point groundHit))
    | None =>
        match v with
        | Porsche => (set_isFalling true s, -100)
        | _ => if hasLanded s then (set_isFalling true s, -100) else (s, -100)
        end
    end
  else (s, -100).

(** The body of [if (carGroupRef.current.position.y < -20) { ... }], without
    the [onRespawn()] call. *)
Definition respawn (v : Variant) (s : Sim) : Sim :=
  match v with
  | Bounded =>
      mkSim 0 0 false false 0
            (Vector3.mk 0 0 0) (worldRotation s)
            (Vector3.set_y 1 (carPosition s)) (Vector3.mk 0 0 0)
  | Highway =>
      mkSim 0 0 false false 0
            (Vector3.set_x 0 (worldPosition s)) (worldRotation s)
            (Vector3.mk 0 0.5 0) (Vector3.mk 0 0 0)
  | Porsche =>
      mkSim 0 0 false (hasLanded s) 0
            (Vector3.mk 0 0 0) (worldRotation s)
            (Vector3.set_y 1 (carPosition s)) (Vector3.mk 0 0 0)
  end.

(** Free fall with respawn below -20, or sticking to the ground.  The
    boolean tells whether the respawn block ran (and [onRespawn] was called). *)
Definition fallOrStick (v : Variant) (dt groundY : R) (s : Sim) : Sim * bool :=
  if isFalling s then
    let s := set_verticalVelocity (verticalVelocity s - gravity) s in
    let s := set_carPosition
               (Vector3.set_y (Vector3.y (carPosition s) + verticalVelocity s)
                              (carPosition s)) s in
    if Rlt_dec (Vector3.y (carPosition s)) (-20) then (respawn v s, true)
    else (s, false)
  else
    let y :=
      match v with
      | Highway => 0
      | _ => MathUtils.lerp (Vector3.y (carPosition s)) groundY (dt * 15)
      end in
    (set_carPosition (Vector3.set_y y (carPosition s)) s, false).

(** ** 5. CUBE COLLISIONS *)

Definition pushCube (worldPos : Vector3.t) (vel : R) (cube : CubeState) : CubeState :=
  if fallen cube then cube
  else
    let cubeGlobal := Vector3.add (position cube) worldPos in
    let dist := Vector3.length (Vector3.mk (Vector3.x cubeGlobal) 0 (Vector3.z cubeGlobal)) in
    if Rlt_dec dist 2.5 then
      let pushDir := Vector3.set_y 0.5 (Vector3.normalize cubeGlobal) in
      mkCube (position cube)
             (Vector3.add (cubeVelocity cube)
                          (Vector3.multiplyScalar (Rabs vel * 1.5 + 0.2) pushDir))
             (fallen cube)
    else cube.

Definition cubeCollisions (worldPos : Vector3.t) (vel : R)
    (cubes : list CubeState) : list CubeState :=
  map (pushCube worldPos vel) cubes.

(** ** The frame callback *)

Record Outcome : Type := mkOutcome
  { sim : Sim; cubeStates : list CubeState; respawned : bool }.

(** [useFrame((_state, delta) => { ... })] with all refs mounted (the guard
    on the first line of the callback passed). *)
Definition useFrame (v : Variant) (f : Frame) (s : Sim)
    (cubes : list CubeState) : Outcome :=
  let s := movementPhysics v (keys f) s in
  let s := relativeWorldMovement v s in
  let s := checkBounds v s in
  let '(s, groundY) := groundAlignment v (delta f) (intersects f) s in
  let '(s, r) := fallOrStick v (delta f) groundY s in
  let cubes := if r then onRespawn f cubes else cubes in
  mkOutcome s (cubeCollisions (worldPosition s) (velocity s) cubes) r.

(** States the component can be in: the mounted scene, then any number of
    frames with arbitrary inputs (the cubes are moved between frames by their
    own integrator, so any cube list may be passed). *)
Inductive reachable (v : Variant) : Sim -> Prop :=
  | reachable_initial : reachable v (initial v)
  | reachable_frame (f : Frame) (s : Sim) (cubes : list CubeState) :
      reachable v s -> reachable v (sim (useFrame v f s cubes)).

(** ** Derived quantities *)

(** The height the car reaches in a falling frame, before the respawn test. *)
Definition fallHeight (s : Sim) : R :=
  Vector3.y (carPosition s) + (verticalVelocity s - gravity).

(** The state on which the ground probe runs. *)
Definition scrolled (v : Variant) (f : Frame) (s : Sim) : Sim :=
  checkBounds v (relativeWorldMovement v (movementPhysics v (keys f) s)).

(** The state on which the fall / stick block runs. *)
Definition probed (v : Variant) (f : Frame) (s : Sim) : Sim * R :=
  groundAlignment v (delta f) (intersects f) (scrolled v f s).

(** ** Concrete inputs *)

Definition terrainHit : Intersection :=
  mkIntersection "Terrain" (Vector3.mk 0 0 0) (Vector3.mk 0 1 0).

Definition keysForward : Keys.t := Keys.mk true false false false false.
Definition keysForwardLeft : Keys.t := Keys.mk true false true false false.
Definition keysLeft : Keys.t := Keys.mk false false true false false.

Definition frameOf (k : Keys.t) (hits : list Intersection) : Frame :=
  mkFrame k (1 / 60) hits (fun cubes => cubes).

(** Driving on the ground at speed [vel], heading 0, anchor at the origin. *)
Definition cruising (vel : R) : Sim :=
  mkSim vel 0 false true 0 (Vector3.mk 0 0 0) (Vector3.mk 0 0 0)
        (Vector3.mk 0 0 0) (Vector3.mk 0 0 0).

(** Airborne at speed [vel], heading 0, at height 0 with no vertical speed. *)
Definition airborne (vel : R) : Sim :=
  mkSim vel 0 true true 0 (Vector3.mk 0 0 0) (Vector3.mk 0 0 0)
        (Vector3.mk 0 0 0) (Vector3.mk 0 0 0).

(** At rest on ground found 25 below the origin, heading 1, having landed. *)
Definition strandedDeep : Sim :=
  mkSim 0 1 false true 0 (Vector3.mk 0 0 0) (Vector3.mk 0 0 0)
        (Vector3.mk 0 (-25) 0) (Vector3.mk 0 0 0).

(** Scenario B: the anchor at the origin, a cube at local (0, 1, 2). *)
Definition scenarioB (vel0 : Vector3.t) : CubeState :=
  mkCube (Vector3.mk 0 1 2) vel0 false.

(** ** Runs *)

(** Successive frames.  The vehicle state after a frame does not depend on
    the cubes, so none are passed. *)
Fixpoint run (v : Variant) (frames : list Frame) (s : Sim) : Sim :=
  match frames with
  | [] => s
  | f :: frames => run v frames (sim (useFrame v f s []))
  end.

(** [distFromCenter] of the bounds check, on the anchor of a state. *)
Definition anchorDistance (s : Sim) : R :=
  sqrt (Vector3.x (worldPosition s) * Vector3.x (worldPosition s)
        + Vector3.z (worldPosition s) * Vector3.z (worldPosition s)).

(** A frame in which the throttle alone is held and the raycast hits. *)
Definition throttleFrame (f : Frame) : Prop :=
  Keys.forward (keys f) = true /\ Keys.brake (keys f) = false /\
  findTerrain (intersects f) <> None.

(** ** The cubes of the scene (the [Cube] component and [Game]) *)

Definition lunarGravity : R := 0.005.
Definition airFriction : R := 0.98.
Definition groundLevel : R := 1.

(** The frame callback of one [Cube]: gravity, air friction, integration,
    ground collision, and the test for having fallen off the world. *)
Definition cubeFrame (state : CubeState) : CubeState :=
  if fallen state then state
  else
    let vel := cubeVelocity state in
    let vel := Vector3.set_y (Vector3.y vel - lunarGravity) vel in
    let vel := Vector3.multiplyScalar airFriction vel in
    let pos := Vector3.add (position state) vel in
    let grounded := if Rlt_dec (Vector3.y pos) groundLevel then true else false in
    let pos := if grounded then Vector3.set_y groundLevel pos else pos in
    let vel :=
      if grounded
      then Vector3.mk (Vector3.x vel * 0.95) 0 (Vector3.z vel * 0.95)
      else vel in
    mkCube pos vel (if Rlt_dec (Vector3.y pos) (-20) then true else false).

(** [Math.random()] is modelled by the stream of its successive results;
    [handleRespawn] draws two numbers per cube, x first. *)
Fixpoint handleRespawnFrom (random : nat -> R) (n : nat)
    (cubes : list CubeState) : list CubeState :=
  match cubes with
  | [] => []
  | _ :: cubes =>
      mkCube (Vector3.mk ((random n - 0.5) * 180) 1 ((random (S n) - 0.5) * 180))
             (Vector3.mk 0 0 0) false
      :: handleRespawnFrom random (S (S n)) cubes
  end.

Definition handleRespawn (random : nat -> R) (cubes : list CubeState) : list CubeState :=
  handleRespawnFrom random 0 cubes.

(** [Array.from({ length: 40 }, () => ...)]: the terrain scene spreads the
    cubes over 180 x 180, the highway scene over 35 x 400. *)
Definition initialCubes (v : Variant) (random : nat -> R) : list CubeState :=
  map (fun i =>
         mkCube (Vector3.mk ((random (2 * i)%nat - 0.5)
                             * match v with Highway => 35 | _ => 180 end)
                            1
                            ((random (2 * i + 1)%nat - 0.5)
                             * match v with Highway => 400 | _ => 180 end))
                (Vector3.mk 0 0 0) false)
      (seq 0 40).

(** What can happen to the cube list: every cube integrates one frame, the
    controller runs its collision pass, or the controller respawns. *)
Inductive CubeEvent : Type :=
  | CubesIntegrate
  | CubesCollide (worldPos : Vector3.t) (vel : R)
  | CubesRespawn (random : nat -> R).

Definition cubeEvent (e : CubeEvent) (cubes : list CubeState) : list CubeState :=
  match e with
  | CubesIntegrate => map cubeFrame cubes
  | CubesCollide worldPos vel => cubeCollisions worldPos vel cubes
  | CubesRespawn random => handleRespawn random cubes
  end.

Definition cubeEvents (es : list CubeEvent) (cubes : list CubeState) : list CubeState :=
  fold_left (fun cubes e => cubeEvent e cubes) es cubes.

(** A live cube at or above the ground level. *)
Definition cubeAboveGround (cube : CubeState) : Prop :=
  fallen cube = false /\ 1 <= Vector3.y (position cube).

(** ** Keyboard *)

Definition setForward (b : bool) (k : Keys.t) : Keys.t :=
  Keys.mk b (Keys.backward k) (Keys.left k) (Keys.right k) (Keys.brake k).
Definition setBackward (b : bool) (k : Keys.t) : Keys.t :=
  Keys.mk (Keys.forward k) b (Keys.left k) (Keys.right k) (Keys.brake k).
Definition setLeft (b : bool) (k : Keys.t) : Keys.t :=
  Keys.mk (Keys.forward k) (Keys.backward k) b (Keys.right k) (Keys.brake k).
Definition setRight (b : bool) (k : Keys.t) : Keys.t :=
  Keys.mk (Keys.forward k) (Keys.backward k) (Keys.left k) b (Keys.brake k).
Definition setBrake (b : bool) (k : Keys.t) : Keys.t :=
  Keys.mk (Keys.forward k) (Keys.backward k) (Keys.left k) (Keys.right k) b.

(** The body shared by the two window listeners of the controller: five
    independent [if]s on [e.code], writing [b] ([true] in the keydown
    listener, [false] in the keyup listener). *)
Definition keyWrite (b : bool) (code : string) (k : Keys.t) : Keys.t :=
  let k := if String.eqb code "ArrowUp" || String.eqb code "KeyW"
           then setForward b k else k in
  let k := if String.eqb code "ArrowDown" || String.eqb code "KeyS"
           then setBackward b k else k in
  let k := if String.eqb code "ArrowLeft" || String.eqb code "KeyA"
           then setLeft b k else k in
  let k := if String.eqb code "ArrowRight" || String.eqb code "KeyD"
           then setRight b k else k in
  if String.eqb code "Space" then setBrake b k else k.

Definition keydown (code : string) (k : Keys.t) : Keys.t := keyWrite true code k.
Definition keyup (code : string) (k : Keys.t) : Keys.t := keyWrite false code k.

(** The state of the [useKeyboard] hook. *)
Record Actions : Type := mkActions
  { actForward : bool; actBackward : bool; actLeft : bool; actRight : bool;
    actBrake : bool; actReset : bool }.

(** The [switch (e.code)] shared by [handleKeyDown] and [handleKeyUp] of the
    hook, each case being [setActions(prev => ({ ...prev, field: b }))]. *)
Definition actionWrite (b : bool) (code : string) (prev : Actions) : Actions :=
  if String.eqb code "ArrowUp" || String.eqb code "KeyW" then
    mkActions b (actBackward prev) (actLeft prev) (actRight prev)
              (actBrake prev) (actReset prev)
  else if String.eqb code "ArrowDown" || String.eqb code "KeyS" then
    mkActions (actForward prev) b (actLeft prev) (actRight prev)
              (actBrake prev) (actReset prev)
  else if String.eqb code "ArrowLeft" || String.eqb code "KeyA" then
    mkActions (actForward prev) (actBackward prev) b (actRight prev)
              (actBrake prev) (actReset prev)
  else if String.eqb code "ArrowRight" || String.eqb code "KeyD" then
    mkActions (actForward prev) (actBackward prev) (actLeft prev) b
              (actBrake prev) (actReset prev)
  else if String.eqb code "Space" then
    mkActions (actForward prev) (actBackward prev) (actLeft prev) (actRight prev)
              b (actReset prev)
  else if String.eqb code "KeyR" then
    mkActions (actForward prev) (actBackward prev) (actLeft prev) (actRight prev)
              (actBrake prev) b
  else prev.

Definition handleKeyDown (code : string) (prev : Actions) : Actions :=
  actionWrite true code prev.
Definition handleKeyUp (code : string) (prev : Actions) : Actions :=
  actionWrite false code prev.

(** The five driving keys of the hook's state. *)
Definition actionKeys (a : Actions) : Keys.t :=
  Keys.mk (actForward a) (actBackward a) (actLeft a) (actRight a) (actBrake a).

(** ** Camera *)

(** [cameraOrbit.current] ([x] is the yaw, [y] the pitch), [isDragging],
    [cameraDist], and the camera's position and look-at point. *)
Record Rig : Type := mkRig
  { orbitX : R; orbitY : R; isDragging : bool; cameraDist : R;
    cameraPosition : Vector3.t; cameraLookAt : Vector3.t }.

(** The refs at their [useRef] values; the camera as the [Canvas] creates it. *)
Definition initialRig (v : Variant) : Rig :=
  mkRig 0 (match v with Porsche => 0.2 | _ => 0.35 end) false 5
        (Vector3.mk 0 6 12) (Vector3.mk 0 0 0).

Definition handleMouseDown (rig : Rig) : Rig :=
  mkRig (orbitX rig) (orbitY rig) true (cameraDist rig)
        (cameraPosition rig) (cameraLookAt rig).

Definition handleMouseUp (rig : Rig) : Rig :=
  mkRig (orbitX rig) (orbitY rig) false (cameraDist rig)
        (cameraPosition rig) (cameraLookAt rig).

Definition handleMouseMove (movementX movementY : R) (rig : Rig) : Rig :=
  if isDragging rig then
    mkRig (orbitX rig - movementX * 0.005)
          (MathUtils.clamp (orbitY rig - movementY * 0.005) 0.05 0.5)
          (isDragging rig) (cameraDist rig) (cameraPosition rig) (cameraLookAt rig)
  else rig.

(** [Vector3.lerp(v, alpha)]: [this.x += (v.x - this.x) * alpha], ... *)
Definition vectorLerp (a b : Vector3.t) (alpha : R) : Vector3.t :=
  Vector3.mk (Vector3.x a + (Vector3.x b - Vector3.x a) * alpha)
             (Vector3.y a + (Vector3.y b - Vector3.y a) * alpha)
             (Vector3.z a + (Vector3.z b - Vector3.z a) * alpha).

(** Section 6 of the frame callback, on the vehicle state the earlier
    sections left. *)
Definition cameraRig (v : Variant) (dt : R) (s : Sim) (rig : Rig) : Rig :=
  let orbitX' :=
    if negb (isDragging rig) then MathUtils.lerp (orbitX rig) 0 (dt * 2)
    else orbitX rig in
  let speedFactor := velocity s / maxSpeed in
  let targetDist := 5 + speedFactor * 2.5 in
  let dist := MathUtils.lerp (cameraDist rig) targetDist (dt * 3) in
  let totalAngle :=
    match v with
    | Highway => steeringAngle s + orbitX'
    | _ => steeringAngle s + PI + orbitX'
    end in
  let camX := sin totalAngle * dist in
  let camZ := cos totalAngle * dist in
  let camY :=
    match v with
    | Bounded => 1.2 + orbitY rig * 3
    | Highway => 2.5 + orbitY rig * 2
    | Porsche => 0.8 + orbitY rig * 3
    end in
  let targetCamPos := Vector3.mk camX (camY + Vector3.y (carPosition s)) camZ in
  mkRig orbitX' (orbitY rig) (isDragging rig) dist
        (vectorLerp (cameraPosition rig) targetCamPos (dt * 6))
        (Vector3.mk 0
           (Vector3.y (carPosition s) + match v with Highway => 2.0 | _ => 0.6 end)
           0).

(** What can happen to the camera state: the three mouse listeners, and the
    camera section of a frame on some vehicle state. *)
Inductive RigEvent : Type :=
  | MouseDown
  | MouseUp
  | MouseMove (movementX movementY : R)
  | CameraFrame (dt : R) (s : Sim).

Definition rigEvent (v : Variant) (e : RigEvent) (rig : Rig) : Rig :=
  match e with
  | MouseDown => handleMouseDown rig
  | MouseUp => handleMouseUp rig
  | MouseMove movementX movementY => handleMouseMove movementX movementY rig
  | CameraFrame dt s => cameraRig v dt s rig
  end.

Definition rigEvents (v : Variant) (es : list RigEvent) (rig : Rig) : Rig :=
  fold_left (fun rig e => rigEvent v e rig) es rig.

(** A drag gesture: successive [mousemove] events (movementX, movementY). *)
Definition dragMoves (moves : list (R * R)) (rig : Rig) : Rig :=
  fold_left (fun rig m => handleMouseMove (fst m) (snd m) rig) moves rig.

Definition sumMovementX (moves : list (R * R)) : R :=
  fold_right (fun m acc => fst m + acc) 0 moves.

(** ** The infinite road *)

Definition SEGMENT_SIZE : R := 20.
Definition SEGMENT_COUNT : nat := 15.
Definition TOTAL_LENGTH : R := SEGMENT_SIZE * INR SEGMENT_COUNT.

(** The local z of the segment groups as mounted:
    [position={[0, 0, -i * SEGMENT_SIZE]}] for i = 0 .. 14. *)
Definition initialRoad : list R :=
  map (fun i => - INR i * SEGMENT_SIZE) (seq 0 SEGMENT_COUNT).

(** The body of the road's frame callback for one group.  The group's
    parents are the road's own group (no transform) and the world anchor,
    which is only translated, so [getWorldPosition] gives the anchor's z plus
    the group's local z. *)
Definition recycleZ (anchorZ groupZ : R) : R :=
  if Rlt_dec 20 (anchorZ + groupZ) then groupZ - TOTAL_LENGTH else groupZ.

Definition roadFrame (anchorZ : R) (groups : list R) : list R :=
  map (recycleZ anchorZ) groups.

(** The road while driving forwards: mounted with the anchor at 0, then
    frame after frame the anchor advances by some [d] in [0, 20] and the
    road's callback runs. *)
Inductive roadReachable : R -> list R -> Prop :=
  | road_mounted : roadReachable 0 initialRoad
  | road_frame (anchorZ d : R) (groups : list R) :
      roadReachable anchorZ groups ->
      0 <= d <= SEGMENT_SIZE ->
      roadReachable (anchorZ + d) (roadFrame (anchorZ + d) groups).

(** What every reachable road satisfies: group i sits a whole number of
    road lengths behind its mounting place, within the recycling window. *)
Definition roadInvariant (anchorZ : R) (groups : list R) : Prop :=
  0 <= anchorZ /\
  Forall2 (fun i groupZ =>
             (exists q : nat, groupZ = - INR i * 20 - 300 * INR q) /\
             -280 <= anchorZ + groupZ <= 20)
          (seq 0 15) groups.

(** The "Terrain" mesh of a segment group: [planeGeometry args={[300,
    SEGMENT_SIZE]}] laid flat in the group, centred on it.  With the world
    anchor at (anchorX, anchorZ) and the group at local z [groupZ], it
    covers the world point (x, z) when x is within 150 of the anchor's x
    and z within 10 of the group's world z. *)
Definition terrainPlaneCovers (anchorX anchorZ groupZ x z : R) : Prop :=
  - (300 / 2) <= x - anchorX <= 300 / 2 /\
  - (SEGMENT_SIZE / 2) <= z - (anchorZ + groupZ) <= SEGMENT_SIZE / 2.

(** ** Wheel discovery (Porsche revision) *)

(** [String.prototype.toLowerCase], on ASCII names. *)
Definition lowerAscii (c : ascii) : ascii :=
  let n := nat_of_ascii c in
  if ((65 <=? n) && (n <=? 90))%nat then ascii_of_nat (n + 32) else c.

Fixpoint toLowerCase (s : string) : string :=
  match s with
  | EmptyString => EmptyString
  | String c s => String (lowerAscii c) (toLowerCase s)
  end.

(** [String.prototype.includes] *)
Fixpoint includes (s sub : string) : bool :=
  String.prefix sub s
  || match s with
     | EmptyString => false
     | String _ s' => includes s' sub
     end.

(** A node met by [clonedScene.traverse]: its name, whether it is a [Mesh],
    and its local [position.z]. *)
Record SceneNode : Type := mkNode
  { nodeName : string; nodeIsMesh : bool; nodePositionZ : R }.

(** The three arrays filled by the effect: [wheels.current],
    [frontWheelsRef.current], [rearWheelsRef.current]. *)
Record WheelRefs : Type := mkWheelRefs
  { allWheels : list SceneNode;
    frontWheels : list SceneNode;
    rearWheels : list SceneNode }.

(** The callback passed to [traverse]; [push] appends. *)
Definition visitNode (refs : WheelRefs) (child : SceneNode) : WheelRefs :=
  if nodeIsMesh child then
    let name := toLowerCase (nodeName child) in
    if includes name "wheel" || includes name "tire" || includes name "rim"
       || includes name "roue" || includes name "rad" then
      let all := allWheels refs ++ [child] in
      if includes name "front" || includes name "fl" || includes name "fr"
         || includes name "avant" || includes name "vorne" then
        mkWheelRefs all (frontWheels refs ++ [child]) (rearWheels refs)
      else if includes name "rear" || includes name "rl" || includes name "rr"
              || includes name "arriere" || includes name "hinten" then
        mkWheelRefs all (frontWheels refs) (rearWheels refs ++ [child])
      else if Rlt_dec 0 (nodePositionZ child) then
        mkWheelRefs all (frontWheels refs ++ [child]) (rearWheels refs)
      else
        mkWheelRefs all (frontWheels refs) (rearWheels refs ++ [child])
    else refs
  else refs.

(** The effect that scans the model, on the nodes in traversal order. *)
Definition findWheels (nodes : list SceneNode) : WheelRefs :=
  fold_left visitNode nodes (mkWheelRefs [] [] []).

(** A node that the scan takes for a wheel, and one it takes for a front
    wheel. *)
Definition wheelNode (child : SceneNode) : bool :=
  let name := toLowerCase (nodeName child) in
  nodeIsMesh child
  && (includes name "wheel" || includes name "tire" || includes name "rim"
      || includes name "roue" || includes name "rad").

Definition frontNode (child : SceneNode) : bool :=
  let name := toLowerCase (nodeName child) in
  if includes name "front" || includes name "fl" || includes name "fr"
     || includes name "avant" || includes name "vorne" then true
  else if includes name "rear" || includes name "rl" || includes name "rr"
          || includes name "arriere" || includes name "hinten" then false
  else if Rlt_dec 0 (nodePositionZ child) then true else false.

(** ** The mountains beside the road (looping terrain) *)

(** The body of the vertex loop of [mountainsGeo] on one vertex of the
    position attribute: [getX], [getZ], and [setY] when the vertex is more
    than 30 from the geometry's own axis x = 0.  [setY] overwrites the
    vertex's y; x and z are kept. *)
Definition mountainVertex (p : Vector3.t) : Vector3.t :=
  let x := Vector3.x p in
  let z := Vector3.z p in
  if Rlt_dec 30 (Rabs x) then
    let dist := Rabs x - 30 in
    let frequency := 2 * PI / 400 in
    let noise := sin (z * frequency) * 10 + cos (z * frequency * 2) * 5 in
    Vector3.set_y (Rmax 0 (dist * 0.5 + noise)) p
  else p.

(** The loop over the position attribute. *)
Definition mountainsGeo (pos : list Vector3.t) : list Vector3.t :=
  map mountainVertex pos.

(** ** The physics-engine car *)

(** What one frame of the [Car] component asks of the physics body and does
    to its own [speed] ref and to the camera. *)
Record CarFrame : Type := mkCarFrame
  { carSpeed : R;
    positionSet : list Vector3.t;
    velocitySet : list Vector3.t;
    angularVelocitySet : list Vector3.t;
    rotationSet : list Vector3.t;
    carCamera : Vector3.t;
    positionUpdate : option (Vector3.t * R) }.

(** [useFrame] of [Car], on the hook's key state, the subscribed position,
    velocity and rotation of the body, the [speed] ref and the camera
    position.  Each list holds the arguments of the calls made to the
    corresponding [api.*.set], in order. *)
Definition carFrame (a : Actions) (pos vel rot : Vector3.t) (speed : R)
    (camera : Vector3.t) : CarFrame :=
  if (if Rlt_dec (Vector3.y pos) (-30) then true else false) || actReset a then
    mkCarFrame 0 [Vector3.mk 0 2 0] [Vector3.mk 0 0 0] [Vector3.mk 0 0 0]
               [Vector3.mk 0 0 0] camera None
  else
    let yRotation := Vector3.y rot in
    let forwardX := - sin yRotation in
    let forwardZ := - cos yRotation in
    let maxSpeed := 30 in
    let accel := 0.5 in
    let friction := 0.98 in
    let speed :=
      if actForward a then Rmin (speed + accel) maxSpeed
      else if actBackward a then Rmax (speed - accel) (- maxSpeed * 0.3)
      else speed * friction in
    let speed := if actBrake a then speed * 0.85 else speed in
    let cameraDistance := 8 in
    let cameraHeight := 3 in
    let cameraX := Vector3.x pos + sin yRotation * cameraDistance in
    let cameraZ := Vector3.z pos + cos yRotation * cameraDistance in
    let targetCameraPos := Vector3.mk cameraX (Vector3.y pos + cameraHeight) cameraZ in
    mkCarFrame speed []
               [Vector3.mk (forwardX * speed) (Vector3.y vel) (forwardZ * speed)]
               ((if actLeft a then [Vector3.mk 0 2.5 0] else [])
                ++ (if actRight a then [Vector3.mk 0 (-2.5) 0] else []))
               []
               (vectorLerp camera targetCameraPos 0.1)
               (Some (pos, yRotation)).

(** The guard of the reset block: [position.current[1] < -30 || reset]. *)
Definition carResets (a : Actions) (pos : Vector3.t) : Prop :=
  Vector3.y pos < -30 \/ actReset a = true.

(** ** 4. VISUAL PHYSICS (Lamborghini revisions) *)

(** The rotation of the model node about x and z, the four wheel-spin
    accumulators [wheelRotations.current], and the steering angle
    ([rotation.y]) of the two front wheel groups. *)
Record Visual : Type := mkVisual
  { modelRotationX : R; modelRotationZ : R;
    spinFL : R; spinFR : R; spinRL : R; spinRR : R;
    steerFL : R; steerFR : R }.

Definition initialVisual : Visual := mkVisual 0 0 0 0 0 0 0 0.

(** Section 4 of the frame callback in the two Lamborghini revisions, with
    the four wheel refs attached; [highway] selects the highway revision,
    whose pitch is disabled.  It runs on the vehicle state left by the
    sections before it. *)
Definition visualPhysics (highway : bool) (k : Keys.t) (dt : R) (s : Sim)
    (vis : Visual) : Visual :=
  let targetRoll := 0 in
  let rotZ := MathUtils.lerp (modelRotationZ vis) targetRoll (dt * 8) in
  let targetPitch :=
    if highway then 0
    else
      let targetPitch := 0 in
      let targetPitch := if Keys.forward k then -0.01 else targetPitch in
      if Keys.backward k || Keys.brake k then 0.015 else targetPitch in
  let rotX := MathUtils.lerp (modelRotationX vis) targetPitch (dt * 4) in
  let rotationSpeed := velocity s * 2.5 in
  let targetSteerAngle :=
    if Keys.left k then 1.0 else if Keys.right k then -1.0 else 0 in
  let smoothSteer := MathUtils.lerp (steerFL vis) targetSteerAngle (dt * 12) in
  mkVisual rotX rotZ
           (spinFL vis + rotationSpeed) (spinFR vis + rotationSpeed)
           (spinRL vis + rotationSpeed) (spinRR vis + rotationSpeed)
           smoothSteer smoothSteer.

(** Successive frames of section 4, each with its keys, frame time and
    vehicle state. *)
Definition visualFrames (highway : bool) (frames : list (Keys.t * R * Sim))
    (vis : Visual) : Visual :=
  fold_left (fun vis f => visualPhysics highway (fst (fst f)) (snd (fst f)) (snd f) vis)
            frames vis.

(** What section 4 keeps true from frame to frame. *)
Definition visualInvariant (vis : Visual) : Prop :=
  modelRotationZ vis = 0 /\
  -0.01 <= modelRotationX vis <= 0.015 /\
  spinFL vis = spinFR vis /\ spinFL vis = spinRL vis /\ spinFL vis = spinRR vis /\
  steerFL vis = steerFR vis /\
  -1 <= steerFL vis <= 1.


(** ** 4. VISUAL PHYSICS (Porsche revision) *)

(** The wheel meshes of the model are shared objects: the three refs hold
    the same meshes.  The store lists the rotation (x, y) of each wheel
    mesh; the refs list positions in the store. *)
Record PorscheVisual : Type := mkPorscheVisual
  { bodyRotationX : R; bodyRotationZ : R;
    wheelRotation : R;
    wheelMeshes : list (R * R) }.

Record WheelIndices : Type := mkWheelIndices
  { frontIndices : list nat; rearIndices : list nat; allIndices : list nat }.

Fixpoint updateAt {A : Type} (i : nat) (f : A -> A) (l : list A) {struct l} : list A :=
  match l, i with
  | [], _ => []
  | a :: l, O => f a :: l
  | a :: l, S i => a :: updateAt i f l
  end.

(** [ref.current.forEach(wheel => ...)] on the store. *)
Definition forEachMesh (indices : list nat) (f : R * R -> R * R)
    (meshes : list (R * R)) : list (R * R) :=
  fold_left (fun meshes i => updateAt i f meshes) indices meshes.

(** Section 4 of the frame callback in the Porsche revision. *)
Definition porscheVisualPhysics (refs : WheelIndices) (k : Keys.t) (dt : R) (s : Sim)
    (vis : PorscheVisual) : PorscheVisual :=
  let turnInput := (if Keys.left k then 1 else 0) - (if Keys.right k then 1 else 0) in
  let targetRoll := - turnInput * (Rabs (velocity s) / maxSpeed) * 0.15 in
  let rotZ := MathUtils.lerp (bodyRotationZ vis) targetRoll (dt * 6) in
  let targetPitch := 0 in
  let targetPitch := if Keys.forward k then -0.03 else targetPitch in
  let targetPitch := if Keys.backward k || Keys.brake k then 0.04 else targetPitch in
  let rotX := MathUtils.lerp (bodyRotationX vis) targetPitch (dt * 3) in
  let wheelRotation' := wheelRotation vis + velocity s * 2.5 in
  let targetSteerAngle :=
    if Keys.left k then 0.4 else if Keys.right k then -0.4 else 0 in
  let meshes :=
    forEachMesh (frontIndices refs)
      (fun wheel => (wheelRotation',
                     MathUtils.lerp (snd wheel) targetSteerAngle (dt * 10)))
      (wheelMeshes vis) in
  let meshes :=
    forEachMesh (rearIndices refs) (fun wheel => (wheelRotation', snd wheel)) meshes in
  let meshes :=
    if (List.length (frontIndices refs) =? 0)%nat
       && (List.length (rearIndices refs) =? 0)%nat
    then forEachMesh (allIndices refs) (fun wheel => (wheelRotation', snd wheel)) meshes
    else meshes in
  mkPorscheVisual rotX rotZ wheelRotation' meshes.

Definition porscheVisualFrames (refs : WheelIndices) (frames : list (Keys.t * R * Sim))
    (vis : PorscheVisual) : PorscheVisual :=
  fold_left (fun vis f =>
               porscheVisualPhysics refs (fst (fst f)) (snd (fst f)) (snd f) vis)
            frames vis.

(** What the Porsche's section 4 keeps true from frame to frame. *)
Definition porscheVisualInvariant (n : nat) (vis : PorscheVisual) : Prop :=
  -0.15 <= bodyRotationZ vis <= 0.15 /\
  -0.03 <= bodyRotationX vis <= 0.04 /\
  List.length (wheelMeshes vis) = n /\
  Forall (fun wheel => -0.4 <= snd wheel <= 0.4) (wheelMeshes vis).

(** * Properties *)

(** ** Stage lemmas *)

Ltac sim_cbn :=
  cbn [velocity steeringAngle isFalling hasLanded verticalVelocity
       worldPosition worldRotation carPosition carRotation
       set_velocity set_steeringAngle set_isFalling set_hasLanded
       set_verticalVelocity set_worldPosition set_worldRotation
       set_carPosition set_carRotation
       Vector3.x Vector3.y Vector3.z Vector3.set_x Vector3.set_y
       sim cubeStates respawned fst snd negb] in *.

Lemma clamp_bounds (value lo hi : R) :
  lo <= hi -> lo <= MathUtils.clamp value lo hi <= hi.
Proof.
  intros Hle. unfold MathUtils.clamp. split.
  - apply Rmax_l.
  - apply Rmax_lub; [exact Hle | apply Rmin_l].
Qed.

Lemma updateVelocity_bounds (k : Keys.t) (vel : R) :
  - maxSpeed * 0.5 <= updateVelocity k vel <= maxSpeed.
Proof.
  unfold updateVelocity. apply clamp_bounds. unfold maxSpeed. lra.
Qed.

Lemma movementPhysics_falling (v : Variant) (k : Keys.t) (s : Sim) :
  isFalling s = true -> movementPhysics v k s = s.
Proof. intros H. unfold movementPhysics. rewrite H. reflexivity. Qed.

Lemma movementPhysics_grounded (v : Variant) (k : Keys.t) (s : Sim) :
  isFalling s = false ->
  velocity (movementPhysics v k s) = updateVelocity k (velocity s) /\
  steeringAngle (movementPhysics v k s)
    = updateSteering v k (updateVelocity k (velocity s)) (steeringAngle s).
Proof. intros H. unfold movementPhysics. rewrite H. split; reflexivity. Qed.

Lemma movementPhysics_rest (v : Variant) (k : Keys.t) (s : Sim) :
  isFalling (movementPhysics v k s) = isFalling s /\
  hasLanded (movementPhysics v k s) = hasLanded s /\
  verticalVelocity (movementPhysics v k s) = verticalVelocity s /\
  worldPosition (movementPhysics v k s) = worldPosition s /\
  worldRotation (movementPhysics v k s) = worldRotation s /\
  carPosition (movementPhysics v k s) = carPosition s /\
  carRotation (movementPhysics v k s) = carRotation s.
Proof.
  unfold movementPhysics.
  destruct (isFalling s) eqn:E; cbn [negb]; sim_cbn; repeat split; auto.
Qed.

Lemma relativeWorldMovement_rest (v : Variant) (s : Sim) :
  velocity (relativeWorldMovement v s) = velocity s /\
  steeringAngle (relativeWorldMovement v s) = steeringAngle s /\
  isFalling (relativeWorldMovement v s) = isFalling s /\
  hasLanded (relativeWorldMovement v s) = hasLanded s /\
  verticalVelocity (relativeWorldMovement v s) = verticalVelocity s /\
  carPosition (relativeWorldMovement v s) = carPosition s /\
  carRotation (relativeWorldMovement v s) = carRotation s.
Proof. repeat split; reflexivity. Qed.

Lemma checkBounds_rest (v : Variant) (s : Sim) :
  velocity (checkBounds v s) = velocity s /\
  steeringAngle (checkBounds v s) = steeringAngle s /\
  hasLanded (checkBounds v s) = hasLanded s /\
  verticalVelocity (checkBounds v s) = verticalVelocity s /\
  worldPosition (checkBounds v s) = worldPosition s /\
  worldRotation (checkBounds v s) = worldRotation s /\
  carPosition (checkBounds v s) = carPosition s /\
  carRotation (checkBounds v s) = carRotation s.
Proof.
  unfold checkBounds. destruct v; try (repeat split; reflexivity);
    destruct (Rlt_dec _ _); repeat split; reflexivity.
Qed.

Lemma checkBounds_falling (v : Variant) (s : Sim) :
  isFalling s = true -> isFalling (checkBounds v s) = true.
Proof.
  intros H. unfold checkBounds. destruct v; try exact H;
    destruct (Rlt_dec _ _); sim_cbn; auto.
Qed.

Lemma groundAlignment_rest (v : Variant) (dt : R) (hits : list Intersection) (s : Sim) :
  velocity (fst (groundAlignment v dt hits s)) = velocity s /\
  steeringAngle (fst (groundAlignment v dt hits s)) = steeringAngle s /\
  verticalVelocity (fst (groundAlignment v dt hits s)) = verticalVelocity s /\
  worldPosition (fst (groundAlignment v dt hits s)) = worldPosition s /\
  worldRotation (fst (groundAlignment v dt hits s)) = worldRotation s /\
  carPosition (fst (groundAlignment v dt hits s)) = carPosition s.
Proof.
  unfold groundAlignment.
  destruct (isFalling s); [repeat split; reflexivity|].
  cbn [negb]. destruct (findTerrain hits) as [hit|].
  - destruct v; repeat split; reflexivity.
  - destruct v; try destruct (hasLanded s); repeat split; reflexivity.
Qed.

Lemma groundAlignment_falling (v : Variant) (dt : R) (hits : list Intersection) (s : Sim) :
  isFalling s = true -> groundAlignment v dt hits s = (s, -100).
Proof. intros H. unfold groundAlignment. rewrite H. reflexivity. Qed.

Lemma fallOrStick_respawned (v : Variant) (dt groundY : R) (s : Sim) :
  snd (fallOrStick v dt groundY s) = true ->
  isFalling s = true /\ fallHeight s < -20 /\
  velocity (fst (fallOrStick v dt groundY s)) = 0 /\
  steeringAngle (fst (fallOrStick v dt groundY s)) = 0 /\
  verticalVelocity (fst (fallOrStick v dt groundY s)) = 0 /\
  isFalling (fst (fallOrStick v dt groundY s)) = false /\
  worldRotation (fst (fallOrStick v dt groundY s)) = worldRotation s.
Proof.
  unfold fallOrStick, fallHeight. destruct (isFalling s); sim_cbn.
  - destruct (Rlt_dec _ _) as [Hlt|Hge]; sim_cbn; [|discriminate].
    intros _. destruct v; repeat split; auto.
  - discriminate.
Qed.

Lemma fallOrStick_respawned_world (v : Variant) (dt groundY : R) (s : Sim) :
  snd (fallOrStick v dt groundY s) = true ->
  worldPosition (fst (fallOrStick v dt groundY s))
    = match v with
      | Highway => Vector3.set_x 0 (worldPosition s)
      | _ => Vector3.mk 0 0 0
      end.
Proof.
  unfold fallOrStick. destruct (isFalling s); sim_cbn.
  - destruct (Rlt_dec _ _); sim_cbn; [|discriminate].
    intros _. destruct v; reflexivity.
  - discriminate.
Qed.

Lemma fallOrStick_continued (v : Variant) (dt groundY : R) (s : Sim) :
  snd (fallOrStick v dt groundY s) = false ->
  (isFalling s = true -> ~ fallHeight s < -20) /\
  velocity (fst (fallOrStick v dt groundY s)) = velocity s /\
  steeringAngle (fst (fallOrStick v dt groundY s)) = steeringAngle s /\
  isFalling (fst (fallOrStick v dt groundY s)) = isFalling s /\
  hasLanded (fst (fallOrStick v dt groundY s)) = hasLanded s /\
  worldPosition (fst (fallOrStick v dt groundY s)) = worldPosition s /\
  worldRotation (fst (fallOrStick v dt groundY s)) = worldRotation s.
Proof.
  unfold fallOrStick, fallHeight. destruct (isFalling s) eqn:E; sim_cbn.
  - destruct (Rlt_dec _ _) as [Hlt|Hge]; sim_cbn; [discriminate|].
    intros _. repeat split; auto.
  - intros _. repeat split; auto. discriminate.
Qed.

Lemma fallOrStick_falling (v : Variant) (dt groundY : R) (s : Sim) :
  isFalling s = true ->
  snd (fallOrStick v dt groundY s) = true <-> fallHeight s < -20.
Proof.
  intros H. unfold fallOrStick, fallHeight. rewrite H. sim_cbn.
  destruct (Rlt_dec _ _); sim_cbn; split; intros; try discriminate; tauto.
Qed.

(** ** Frame lemmas *)

Lemma useFrame_stages (v : Variant) (f : Frame) (s : Sim) (cubes : list CubeState) :
  sim (useFrame v f s cubes)
    = fst (fallOrStick v (delta f) (snd (probed v f s)) (fst (probed v f s))) /\
  respawned (useFrame v f s cubes)
    = snd (fallOrStick v (delta f) (snd (probed v f s)) (fst (probed v f s))).
Proof.
  unfold useFrame, probed, scrolled.
  destruct (groundAlignment _ _ _ _) as [s4 groundY]. cbn [fst snd].
  destruct (fallOrStick _ _ _ _) as [s5 r]. split; reflexivity.
Qed.

Lemma scrolled_kinematics (v : Variant) (f : Frame) (s : Sim) :
  velocity (scrolled v f s) = velocity (movementPhysics v (keys f) s) /\
  steeringAngle (scrolled v f s) = steeringAngle (movementPhysics v (keys f) s) /\
  verticalVelocity (scrolled v f s) = verticalVelocity s /\
  carPosition (scrolled v f s) = carPosition s /\
  worldPosition (scrolled v f s)
    = worldPosition (relativeWorldMovement v (movementPhysics v (keys f) s)) /\
  worldRotation (scrolled v f s) = Vector3.mk 0 0 0.
Proof.
  unfold scrolled.
  destruct (checkBounds_rest v (relativeWorldMovement v (movementPhysics v (keys f) s)))
    as (Hv & Ha & _ & Hvv & Hwp & Hwr & Hcp & _).
  destruct (relativeWorldMovement_rest v (movementPhysics v (keys f) s))
    as (Hv' & Ha' & _ & _ & Hvv' & Hcp' & _).
  destruct (movementPhysics_rest v (keys f) s) as (_ & _ & Hvv'' & _ & _ & Hcp'' & _).
  rewrite Hv, Ha, Hvv, Hwp, Hwr, Hcp, Hv', Ha', Hvv', Hcp', Hvv'', Hcp''.
  repeat split; reflexivity.
Qed.

Lemma probed_kinematics (v : Variant) (f : Frame) (s : Sim) :
  velocity (fst (probed v f s)) = velocity (movementPhysics v (keys f) s) /\
  steeringAngle (fst (probed v f s)) = steeringAngle (movementPhysics v (keys f) s) /\
  verticalVelocity (fst (probed v f s)) = verticalVelocity s /\
  carPosition (fst (probed v f s)) = carPosition s /\
  worldPosition (fst (probed v f s))
    = worldPosition (relativeWorldMovement v (movementPhysics v (keys f) s)) /\
  worldRotation (fst (probed v f s)) = Vector3.mk 0 0 0.
Proof.
  unfold probed.
  destruct (groundAlignment_rest v (delta f) (intersects f) (scrolled v f s))
    as (Hv & Ha & Hvv & Hwp & Hwr & Hcp).
  destruct (scrolled_kinematics v f s) as (Hv' & Ha' & Hvv' & Hcp' & Hwp' & Hwr').
  rewrite Hv, Ha, Hvv, Hwp, Hwr, Hcp. repeat split; assumption.
Qed.

Lemma scrolled_falling (v : Variant) (f : Frame) (s : Sim) :
  isFalling s = true -> isFalling (scrolled v f s) = true.
Proof.
  intros H. unfold scrolled. apply checkBounds_falling.
  destruct (relativeWorldMovement_rest v (movementPhysics v (keys f) s))
    as (_ & _ & Hf & _).
  destruct (movementPhysics_rest v (keys f) s) as (Hf' & _).
  congruence.
Qed.

Lemma probed_falling (v : Variant) (f : Frame) (s : Sim) :
  isFalling s = true -> probed v f s = (scrolled v f s, -100).
Proof.
  intros H. unfold probed. apply groundAlignment_falling, scrolled_falling, H.
Qed.

(** A frame that does not respawn keeps the speed and heading computed by
    the kinematics block, and the anchor where the scroll block put it. *)
Lemma useFrame_continued (v : Variant) (f : Frame) (s : Sim) (cubes : list CubeState) :
  respawned (useFrame v f s cubes) = false ->
  velocity (sim (useFrame v f s cubes)) = velocity (movementPhysics v (keys f) s) /\
  steeringAngle (sim (useFrame v f s cubes))
    = steeringAngle (movementPhysics v (keys f) s) /\
  worldPosition (sim (useFrame v f s cubes))
    = worldPosition (relativeWorldMovement v (movementPhysics v (keys f) s)) /\
  isFalling (sim (useFrame v f s cubes)) = isFalling (fst (probed v f s)).
Proof.
  destruct (useFrame_stages v f s cubes) as [-> ->]. intros Hr.
  destruct (fallOrStick_continued _ _ _ _ Hr) as (_ & Hv & Ha & Hf & _ & Hwp & _).
  destruct (probed_kinematics v f s) as (Hv' & Ha' & _ & _ & Hwp' & _).
  rewrite Hv, Ha, Hwp, Hf. repeat split; assumption.
Qed.

(** A frame that respawns ends grounded with speed, heading and vertical
    velocity zeroed; it was falling when the fall block ran. *)
Lemma useFrame_respawned (v : Variant) (f : Frame) (s : Sim) (cubes : list CubeState) :
  respawned (useFrame v f s cubes) = true ->
  velocity (sim (useFrame v f s cubes)) = 0 /\
  steeringAngle (sim (useFrame v f s cubes)) = 0 /\
  verticalVelocity (sim (useFrame v f s cubes)) = 0 /\
  isFalling (sim (useFrame v f s cubes)) = false /\
  isFalling (fst (probed v f s)) = true /\
  fallHeight s < -20.
Proof.
  destruct (useFrame_stages v f s cubes) as [-> ->]. intros Hr.
  destruct (fallOrStick_respawned _ _ _ _ Hr) as (Hf & Hh & Hv & Ha & Hvv & Hf' & _).
  destruct (probed_kinematics v f s) as (_ & _ & Hvv' & Hcp' & _).
  unfold fallHeight in *. rewrite Hvv', Hcp' in Hh. repeat split; assumption.
Qed.

Lemma useFrame_worldRotation (v : Variant) (f : Frame) (s : Sim) (cubes : list CubeState) :
  worldRotation (sim (useFrame v f s cubes)) = Vector3.mk 0 0 0.
Proof.
  destruct (probed_kinematics v f s) as (_ & _ & _ & _ & _ & Hwr).
  destruct (useFrame_stages v f s cubes) as [Hs Hr]. rewrite Hs.
  destruct (snd (fallOrStick v (delta f) (snd (probed v f s)) (fst (probed v f s))))
    eqn:E.
  - destruct (fallOrStick_respawned _ _ _ _ E) as (_ & _ & _ & _ & _ & _ & H).
    congruence.
  - destruct (fallOrStick_continued _ _ _ _ E) as (_ & _ & _ & _ & _ & _ & H).
    congruence.
Qed.

(** While falling, the respawn block runs exactly when the integrated height
    drops below -20. *)
Lemma useFrame_falling_respawned (v : Variant) (f : Frame) (s : Sim)
    (cubes : list CubeState) :
  isFalling s = true ->
  respawned (useFrame v f s cubes) = true <-> fallHeight s < -20.
Proof.
  intros H. destruct (useFrame_stages v f s cubes) as [_ ->].
  rewrite (probed_falling v f s H). cbn [fst snd].
  rewrite (fallOrStick_falling v (delta f) (-100) _ (scrolled_falling v f s H)).
  destruct (scrolled_kinematics v f s) as (_ & _ & Hvv & Hcp & _).
  unfold fallHeight. rewrite Hvv, Hcp. tauto.
Qed.

(** ** Vehicle kinematics *)

Lemma clamp_inside (value lo hi : R) :
  lo <= value <= hi -> MathUtils.clamp value lo hi = value.
Proof.
  intros [Hlo Hhi]. unfold MathUtils.clamp.
  rewrite (Rmin_right hi value Hhi). apply Rmax_right, Hlo.
Qed.

Lemma updateVelocity_rest (k : Keys.t) :
  Keys.forward k = false -> Keys.backward k = false -> updateVelocity k 0 = 0.
Proof.
  intros Hf Hb. unfold updateVelocity. rewrite Hf, Hb.
  assert (H0 : (if Keys.brake k then 0 * friction * 0.88 else 0 * friction) = 0)
    by (destruct (Keys.brake k); lra).
  rewrite H0. apply clamp_inside. unfold maxSpeed. lra.
Qed.

Lemma updateSteering_deadzone (v : Variant) (k : Keys.t) (vel angle : R) :
  Rabs vel <= 0.01 -> updateSteering v k vel angle = angle.
Proof.
  intros H. unfold updateSteering.
  destruct (Rlt_dec 0.01 (Rabs vel)) as [Hlt|_]; [lra | reflexivity].
Qed.

(** Pressing the throttle from rest leaves the deadzone within the same
    frame: the steering test reads the velocity already updated. *)
Remark throttle_then_steer_same_frame :
  updateVelocity keysForwardLeft 0 = 0.02 /\
  updateSteering Bounded keysForwardLeft (updateVelocity keysForwardLeft 0) 0
    = 0.05 * (0.02 / 1.2).
Proof.
  assert (Hv : updateVelocity keysForwardLeft 0 = 0.02).
  { unfold updateVelocity, keysForwardLeft, acceleration, maxSpeed.
    cbn [Keys.forward Keys.brake]. rewrite clamp_inside; lra. }
  split; [exact Hv|]. rewrite Hv. unfold updateSteering, keysForwardLeft.
  cbn [Keys.left Keys.right].
  assert (Habs : Rabs 0.02 = 0.02) by (apply Rabs_pos_eq; lra).
  rewrite Habs.
  destruct (Rlt_dec 0.01 0.02) as [_|Hn]; [|lra].
  destruct (Rlt_dec 0 0.02) as [_|Hn]; [|lra].
  unfold turnSpeed, maxSpeed. lra.
Qed.

(** C4.  After one frame the speed lies in [-maxSpeed * 0.5, maxSpeed]
    = [-0.6, 1.2], for every revision, every key state, every probe result
    and every prior speed within these bounds; this includes frames spent
    falling (speed untouched) and the respawn frame (speed zeroed). *)
Theorem speed_stays_clamped (v : Variant) (f : Frame) (s : Sim)
    (cubes : list CubeState) :
  - (1.2 * 0.5) <= velocity s <= 1.2 ->
  - (1.2 * 0.5) <= velocity (sim (useFrame v f s cubes)) <= 1.2.
Proof.
  intros Hs. destruct (respawned (useFrame v f s cubes)) eqn:Hr.
  - destruct (useFrame_respawned v f s cubes Hr) as (-> & _). lra.
  - destruct (useFrame_continued v f s cubes Hr) as (-> & _).
    destruct (isFalling s) eqn:Hf.
    + rewrite movementPhysics_falling by exact Hf. exact Hs.
    + destruct (movementPhysics_grounded v (keys f) s Hf) as (-> & _).
      pose proof (updateVelocity_bounds (keys f) (velocity s)) as Hb.
      unfold maxSpeed in Hb. lra.
Qed.

Lemma speed_stays_clamped_witness :
  - (1.2 * 0.5) <= velocity (cruising 1.19) <= 1.2 /\
  - (1.2 * 0.5)
    <= velocity (sim (useFrame Bounded (frameOf keysForward [terrainHit])
                               (cruising 1.19) []))
    <= 1.2.
Proof.
  split.
  - cbn [velocity cruising]. lra.
  - apply (speed_stays_clamped Bounded (frameOf keysForward [terrainHit])
             (cruising 1.19) []).
    cbn [velocity cruising]. lra.
Defined.

(** The bound is an invariant of every run from the mounted scene. *)
Lemma reachable_speed_clamped (v : Variant) (s : Sim) :
  reachable v s -> - (1.2 * 0.5) <= velocity s <= 1.2.
Proof.
  induction 1 as [|f s cubes _ IH].
  - cbn [initial velocity]. lra.
  - destruct (respawned (useFrame v f s cubes)) eqn:Hr.
    + destruct (useFrame_respawned v f s cubes Hr) as (-> & _). lra.
    + destruct (useFrame_continued v f s cubes Hr) as (-> & _).
      destruct (isFalling s) eqn:Hf.
      * rewrite movementPhysics_falling by exact Hf. exact IH.
      * destruct (movementPhysics_grounded v (keys f) s Hf) as (-> & _).
        pose proof (updateVelocity_bounds (keys f) (velocity s)) as Hb.
        unfold maxSpeed in Hb. lra.
Qed.

(** C7, amended.  Grounded, at speed exactly 0 and with neither forward nor
    backward pressed, a frame leaves the heading unchanged for every
    combination of left, right and brake: the kinematics block does not
    touch it, the speed stays 0 and the deadzone test [|speed| > 0.01]
    fails.  The one exception is a frame that starts a fall and runs the
    respawn block at once, which resets the heading to 0. *)
Theorem steering_deadzone_at_rest (v : Variant) (f : Frame) (s : Sim)
    (cubes : list CubeState) :
  isFalling s = false ->
  velocity s = 0 ->
  Keys.forward (keys f) = false ->
  Keys.backward (keys f) = false ->
  steeringAngle (movementPhysics v (keys f) s) = steeringAngle s /\
  steeringAngle (sim (useFrame v f s cubes))
    = (if respawned (useFrame v f s cubes) then 0 else steeringAngle s) /\
  velocity (sim (useFrame v f s cubes)) = 0 /\
  ~ 0.01 < Rabs (velocity (sim (useFrame v f s cubes))).
Proof.
  intros Hf Hv Hfw Hbw.
  destruct (movementPhysics_grounded v (keys f) s Hf) as (Hvel' & Hang').
  rewrite Hv, (updateVelocity_rest (keys f) Hfw Hbw) in Hvel', Hang'.
  rewrite updateSteering_deadzone in Hang' by (rewrite Rabs_R0; lra).
  split; [exact Hang'|].
  destruct (respawned (useFrame v f s cubes)) eqn:Hr.
  - destruct (useFrame_respawned v f s cubes Hr) as (-> & -> & _).
    repeat split. rewrite Rabs_R0. lra.
  - destruct (useFrame_continued v f s cubes Hr) as (-> & -> & _).
    rewrite Hvel', Hang'. repeat split. rewrite Rabs_R0. lra.
Qed.

Lemma useFrame_no_respawn (v : Variant) (f : Frame) (s : Sim) (cubes : list CubeState) :
  ~ fallHeight s < -20 -> respawned (useFrame v f s cubes) = false.
Proof.
  intros Hh. destruct (respawned (useFrame v f s cubes)) eqn:Hr; [|reflexivity].
  destruct (useFrame_respawned v f s cubes Hr) as (_ & _ & _ & _ & _ & Hlt).
  contradiction.
Qed.

Lemma steering_deadzone_at_rest_witness :
  steeringAngle (movementPhysics Bounded (keys (frameOf keysLeft [terrainHit]))
                                 (cruising 0))
    = steeringAngle (cruising 0) /\
  steeringAngle (sim (useFrame Bounded (frameOf keysLeft [terrainHit]) (cruising 0) []))
    = (if respawned (useFrame Bounded (frameOf keysLeft [terrainHit]) (cruising 0) [])
       then 0 else steeringAngle (cruising 0)) /\
  velocity (sim (useFrame Bounded (frameOf keysLeft [terrainHit]) (cruising 0) [])) = 0 /\
  ~ 0.01 < Rabs (velocity (sim (useFrame Bounded (frameOf keysLeft [terrainHit])
                                         (cruising 0) []))).
Proof.
  apply (steering_deadzone_at_rest Bounded (frameOf keysLeft [terrainHit])
           (cruising 0) []); reflexivity.
Defined.

(** C7, as stated, fails: grounded at speed exactly 0, a frame with the
    throttle and left held first raises the speed to 0.02, above the
    deadzone, and then steers in the same frame; the heading changes from 0
    to 0.05 * (0.02 / 1.2).  The frame does not respawn. *)
Lemma throttle_from_rest_steers_at_once :
  isFalling (cruising 0) = false /\
  velocity (cruising 0) = 0 /\
  respawned (useFrame Bounded (frameOf keysForwardLeft [terrainHit]) (cruising 0) [])
    = false /\
  steeringAngle (sim (useFrame Bounded (frameOf keysForwardLeft [terrainHit])
                               (cruising 0) []))
    = 0.05 * (0.02 / 1.2) /\
  steeringAngle (sim (useFrame Bounded (frameOf keysForwardLeft [terrainHit])
                               (cruising 0) []))
    <> steeringAngle (cruising 0).
Proof.
  assert (Hr : respawned (useFrame Bounded (frameOf keysForwardLeft [terrainHit])
                                   (cruising 0) []) = false).
  { apply useFrame_no_respawn. unfold fallHeight, gravity.
    cbn [cruising carPosition verticalVelocity Vector3.y]. lra. }
  assert (Ha : steeringAngle (sim (useFrame Bounded
                                     (frameOf keysForwardLeft [terrainHit])
                                     (cruising 0) []))
               = 0.05 * (0.02 / 1.2)).
  { destruct (useFrame_continued _ _ _ _ Hr) as (_ & -> & _).
    destruct (movementPhysics_grounded Bounded
                (keys (frameOf keysForwardLeft [terrainHit])) (cruising 0) eq_refl)
      as (_ & ->).
    cbn [keys frameOf cruising velocity steeringAngle].
    exact (proj2 throttle_then_steer_same_frame). }
  repeat split; try assumption.
  rewrite Ha. cbn [cruising steeringAngle]. lra.
Qed.

(** The exception in C7: a vehicle resting on ground below the respawn
    depth that loses the ground starts to fall and is respawned in the same
    frame, and its heading is reset. *)
Remark respawn_at_rest_resets_heading :
  isFalling strandedDeep = false /\
  velocity strandedDeep = 0 /\
  steeringAngle strandedDeep = 1 /\
  respawned (useFrame Bounded (frameOf keysLeft []) strandedDeep []) = true /\
  steeringAngle (sim (useFrame Bounded (frameOf keysLeft []) strandedDeep [])) = 0.
Proof.
  assert (Hr : respawned (useFrame Bounded (frameOf keysLeft []) strandedDeep []) = true).
  { destruct (useFrame_stages Bounded (frameOf keysLeft []) strandedDeep [])
      as [_ ->].
    assert (Hp : isFalling (fst (probed Bounded (frameOf keysLeft []) strandedDeep))
                 = true).
    { unfold probed, groundAlignment.
      destruct (isFalling (scrolled Bounded (frameOf keysLeft []) strandedDeep))
        eqn:Hsc; cbn [negb fst]; [exact Hsc|].
      cbn [intersects frameOf findTerrain find].
      assert (Hl : hasLanded (scrolled Bounded (frameOf keysLeft []) strandedDeep)
                   = true).
      { unfold scrolled.
        destruct (checkBounds_rest Bounded
                    (relativeWorldMovement Bounded
                       (movementPhysics Bounded (keys (frameOf keysLeft []))
                                        strandedDeep)))
          as (_ & _ & -> & _).
        destruct (relativeWorldMovement_rest Bounded
                    (movementPhysics Bounded (keys (frameOf keysLeft [])) strandedDeep))
          as (_ & _ & _ & -> & _).
        destruct (movementPhysics_rest Bounded (keys (frameOf keysLeft [])) strandedDeep)
          as (_ & -> & _). reflexivity. }
      rewrite Hl. reflexivity. }
    apply (fallOrStick_falling Bounded _ _ _ Hp).
    destruct (probed_kinematics Bounded (frameOf keysLeft []) strandedDeep)
      as (_ & _ & Hvv & Hcp & _).
    unfold fallHeight, gravity. rewrite Hvv, Hcp.
    cbn [strandedDeep carPosition verticalVelocity Vector3.y]. lra. }
  destruct (useFrame_respawned _ _ _ _ Hr) as (_ & Ha & _).
  repeat split; assumption.
Qed.

(** ** Falling and respawn *)

(** C6.  A falling vehicle is grounded again after a frame exactly when that
    frame ran the respawn block, which happens exactly when the integrated
    height dropped below -20; the raycast result plays no part: the state
    after the frame is the same whatever the probe would have returned. *)
Theorem falling_ends_only_by_respawn (v : Variant) (f : Frame) (s : Sim)
    (cubes : list CubeState) :
  isFalling s = true ->
  isFalling (sim (useFrame v f s cubes)) = negb (respawned (useFrame v f s cubes)) /\
  (respawned (useFrame v f s cubes) = true <-> fallHeight s < -20) /\
  forall hits : list Intersection,
    sim (useFrame v (mkFrame (keys f) (delta f) hits (onRespawn f)) s cubes)
      = sim (useFrame v f s cubes).
Proof.
  intros Hf. split; [|split].
  - destruct (respawned (useFrame v f s cubes)) eqn:Hr.
    + destruct (useFrame_respawned v f s cubes Hr) as (_ & _ & _ & H & _). exact H.
    + destruct (useFrame_continued v f s cubes Hr) as (_ & _ & _ & H).
      rewrite H, (probed_falling v f s Hf). cbn [fst negb].
      apply scrolled_falling, Hf.
  - apply useFrame_falling_respawned, Hf.
  - intros hits.
    destruct (useFrame_stages v f s cubes) as [-> _].
    destruct (useFrame_stages v (mkFrame (keys f) (delta f) hits (onRespawn f)) s cubes)
      as [-> _].
    rewrite (probed_falling v f s Hf).
    rewrite (probed_falling v (mkFrame (keys f) (delta f) hits (onRespawn f)) s Hf).
    reflexivity.
Qed.

Lemma falling_ends_only_by_respawn_witness :
  isFalling (sim (useFrame Bounded (frameOf keysForward [terrainHit]) (airborne 0.5) []))
    = negb (respawned (useFrame Bounded (frameOf keysForward [terrainHit])
                                (airborne 0.5) [])) /\
  (respawned (useFrame Bounded (frameOf keysForward [terrainHit]) (airborne 0.5) [])
     = true <-> fallHeight (airborne 0.5) < -20) /\
  forall hits : list Intersection,
    sim (useFrame Bounded
           (mkFrame (keys (frameOf keysForward [terrainHit]))
                    (delta (frameOf keysForward [terrainHit])) hits
                    (onRespawn (frameOf keysForward [terrainHit])))
           (airborne 0.5) [])
      = sim (useFrame Bounded (frameOf keysForward [terrainHit]) (airborne 0.5) []).
Proof.
  apply (falling_ends_only_by_respawn Bounded (frameOf keysForward [terrainHit])
           (airborne 0.5) []).
  reflexivity.
Defined.

(** C8.  The respawn reset is idempotent: running it twice gives the state of
    running it once.  That state has speed, heading and vertical velocity 0,
    is grounded, has the car rotation cleared, the car at its spawn height
    (1, or 0.5 in the highway revision) and the anchor's x at 0. *)
Theorem respawn_idempotent (v : Variant) (s : Sim) :
  respawn v (respawn v s) = respawn v s /\
  velocity (respawn v s) = 0 /\
  steeringAngle (respawn v s) = 0 /\
  verticalVelocity (respawn v s) = 0 /\
  isFalling (respawn v s) = false /\
  carRotation (respawn v s) = Vector3.mk 0 0 0 /\
  Vector3.y (carPosition (respawn v s)) = match v with Highway => 0.5 | _ => 1 end /\
  Vector3.x (worldPosition (respawn v s)) = 0.
Proof. destruct v; repeat split; reflexivity. Qed.

(** ** World anchor *)

(** C9.  In every state reachable from the mounted scene the anchor's
    rotation is (0, 0, 0) and its height is 0: every frame resets the
    rotation, and only [position.x] and [position.z] are ever moved. *)
Theorem world_anchor_never_rotated (v : Variant) (s : Sim) :
  reachable v s ->
  worldRotation s = Vector3.mk 0 0 0 /\ Vector3.y (worldPosition s) = 0.
Proof.
  induction 1 as [|f s cubes _ [_ IHy]].
  - split; reflexivity.
  - split; [apply useFrame_worldRotation|].
    destruct (useFrame_stages v f s cubes) as [-> _].
    destruct (probed_kinematics v f s) as (_ & _ & _ & _ & Hwp & _).
    assert (Hy : Vector3.y (worldPosition (fst (probed v f s))) = 0).
    { rewrite Hwp.
      destruct (movementPhysics_rest v (keys f) s) as (_ & _ & _ & Hwp' & _).
      unfold relativeWorldMovement. rewrite Hwp'. destruct v; sim_cbn; exact IHy. }
    revert Hy. generalize (snd (probed v f s)). generalize (fst (probed v f s)).
    intros s4 groundY Hy. unfold fallOrStick.
    destruct (isFalling s4); [|sim_cbn; exact Hy].
    destruct (Rlt_dec _ _); sim_cbn; [|exact Hy].
    destruct v; unfold respawn; sim_cbn; auto.
Qed.

Lemma world_anchor_never_rotated_witness :
  worldRotation (sim (useFrame Highway (frameOf keysForwardLeft [terrainHit])
                               (initial Highway) []))
    = Vector3.mk 0 0 0 /\
  Vector3.y (worldPosition (sim (useFrame Highway (frameOf keysForwardLeft [terrainHit])
                                          (initial Highway) []))) = 0.
Proof.
  apply (world_anchor_never_rotated Highway).
  apply reachable_frame. apply reachable_initial.
Defined.

(** C10.  While falling the frame leaves speed and heading as they were, and
    the scroll block still moves the anchor by the displacement
    (sin(heading) * speed, 0, cos(heading) * speed) computed from these
    frozen values (subtracted in the bounded revisions, added in the highway
    revision); the respawn frame zeroes speed and heading and re-centres the
    anchor (only its x in the highway revision). *)
Theorem falling_freezes_kinematics_world_scrolls (v : Variant) (f : Frame) (s : Sim)
    (cubes : list CubeState) :
  isFalling s = true ->
  velocity (sim (useFrame v f s cubes))
    = (if respawned (useFrame v f s cubes) then 0 else velocity s) /\
  steeringAngle (sim (useFrame v f s cubes))
    = (if respawned (useFrame v f s cubes) then 0 else steeringAngle s) /\
  worldPosition (sim (useFrame v f s cubes))
    = match v, respawned (useFrame v f s cubes) with
      | Highway, false =>
          Vector3.mk
            (Vector3.x (worldPosition s) + sin (steeringAngle s) * velocity s)
            (Vector3.y (worldPosition s))
            (Vector3.z (worldPosition s) + cos (steeringAngle s) * velocity s)
      | Highway, true =>
          Vector3.mk
            0
            (Vector3.y (worldPosition s))
            (Vector3.z (worldPosition s) + cos (steeringAngle s) * velocity s)
      | _, false =>
          Vector3.mk
            (Vector3.x (worldPosition s) - sin (steeringAngle s) * velocity s)
            (Vector3.y (worldPosition s))
            (Vector3.z (worldPosition s) - cos (steeringAngle s) * velocity s)
      | _, true => Vector3.mk 0 0 0
      end.
Proof.
  intros Hf.
  destruct (respawned (useFrame v f s cubes)) eqn:Hr.
  - destruct (useFrame_respawned v f s cubes Hr) as (-> & -> & _).
    repeat split.
    destruct (useFrame_stages v f s cubes) as [Hs Hr']. rewrite Hs.
    pose proof Hr as Hr0. rewrite Hr' in Hr0.
    rewrite (fallOrStick_respawned_world _ _ _ _ Hr0).
    destruct v; rewrite Hr; try reflexivity.
    destruct (probed_kinematics Highway f s) as (_ & _ & _ & _ & -> & _).
    rewrite (movementPhysics_falling Highway (keys f) s Hf). reflexivity.
  - destruct (useFrame_continued v f s cubes Hr) as (-> & -> & -> & _).
    rewrite (movementPhysics_falling v (keys f) s Hf).
    repeat split. destruct v; rewrite Hr; reflexivity.
Qed.

Lemma falling_freezes_kinematics_world_scrolls_witness :
  velocity (sim (useFrame Porsche (frameOf keysForwardLeft []) (airborne 0.5) []))
    = velocity (airborne 0.5) /\
  steeringAngle (sim (useFrame Porsche (frameOf keysForwardLeft []) (airborne 0.5) []))
    = steeringAngle (airborne 0.5) /\
  worldPosition (sim (useFrame Porsche (frameOf keysForwardLeft []) (airborne 0.5) []))
    = Vector3.mk (0 - sin 0 * 0.5) 0 (0 - cos 0 * 0.5).
Proof.
  pose proof (falling_freezes_kinematics_world_scrolls Porsche
                (frameOf keysForwardLeft []) (airborne 0.5) [] eq_refl) as H.
  rewrite (useFrame_no_respawn Porsche (frameOf keysForwardLeft []) (airborne 0.5) [])
    in H.
  - exact H.
  - unfold fallHeight, gravity.
    cbn [airborne carPosition verticalVelocity Vector3.y]. lra.
Defined.

(** ** Prop interaction *)

Lemma sqrt_4 : sqrt 4 = 2.
Proof. replace 4 with (2 * 2) by lra. apply sqrt_square. lra. Qed.

Lemma sqrt_5_gt_2 : 2 < sqrt 5.
Proof. rewrite <- sqrt_4. apply sqrt_lt_1; lra. Qed.

Lemma scenarioB_planar_distance (vel0 : Vector3.t) :
  let cubeGlobal := Vector3.add (position (scenarioB vel0)) (Vector3.mk 0 0 0) in
  Vector3.length (Vector3.mk (Vector3.x cubeGlobal) 0 (Vector3.z cubeGlobal)) = 2.
Proof.
  cbv zeta. unfold Vector3.length, Vector3.add, scenarioB.
  cbn [position Vector3.x Vector3.y Vector3.z].
  replace ((0 + 0) * (0 + 0) + 0 * 0 + (2 + 0) * (2 + 0)) with 4 by lra.
  apply sqrt_4.
Qed.

Lemma scenarioB_length (vel0 : Vector3.t) :
  Vector3.length (Vector3.add (position (scenarioB vel0)) (Vector3.mk 0 0 0)) = sqrt 5.
Proof.
  unfold Vector3.length, Vector3.add, scenarioB.
  cbn [position Vector3.x Vector3.y Vector3.z]. f_equal. lra.
Qed.

Lemma scenarioB_push (vel0 : Vector3.t) :
  pushCube (Vector3.mk 0 0 0) 0.5 (scenarioB vel0)
    = mkCube (Vector3.mk 0 1 2)
             (Vector3.mk (Vector3.x vel0)
                         (Vector3.y vel0 + 0.5 * (0.5 * 1.5 + 0.2))
                         (Vector3.z vel0 + 2 / sqrt 5 * (0.5 * 1.5 + 0.2)))
             false.
Proof.
  pose proof sqrt_5_gt_2 as H5.
  unfold pushCube. cbn [fallen scenarioB position cubeVelocity]. cbv zeta.
  pose proof (scenarioB_planar_distance vel0) as Hd. cbv zeta in Hd.
  cbn [position scenarioB] in Hd. rewrite Hd.
  destruct (Rlt_dec 2 2.5) as [_|Hn]; [|lra].
  unfold Vector3.normalize.
  pose proof (scenarioB_length vel0) as Hl. cbn [position scenarioB] in Hl.
  rewrite Hl.
  destruct (Req_dec_T (sqrt 5) 0) as [H0|_]; [lra|].
  unfold Vector3.divideScalar, Vector3.multiplyScalar, Vector3.add, Vector3.set_y.
  cbn [cubeVelocity Vector3.x Vector3.y Vector3.z].
  assert (Habs : Rabs 0.5 = 0.5) by (apply Rabs_pos_eq; lra).
  rewrite Habs. f_equal. f_equal; field; lra.
Qed.

Lemma scenarioB_direction_shorter : 2 / sqrt 5 < 1.
Proof.
  pose proof sqrt_5_gt_2 as H5.
  assert (Hq : 2 / sqrt 5 * sqrt 5 = 2) by (field; lra).
  nra.
Qed.

(** C5, as stated, fails: starting from rest, the cube's velocity along
    (0, 0, 1) after the impulse is not 0.5 * 1.5 + 0.2. *)
Lemma scenarioB_gain_is_not_full_impulse :
  Vector3.z (cubeVelocity (pushCube (Vector3.mk 0 0 0) 0.5
                                    (scenarioB (Vector3.mk 0 0 0))))
    <> 0.5 * 1.5 + 0.2.
Proof.
  rewrite scenarioB_push. cbn [cubeVelocity Vector3.z].
  pose proof scenarioB_direction_shorter. nra.
Qed.

(** C5, amended.  In Scenario B the planar distance is 2 < 2.5, so the
    impulse is applied; with speed 0.5 it adds to the cube's velocity
    0.5 * 0.95 upwards and (2 / sqrt 5) * 0.95 along (0, 0, 1), where
    0.95 = 0.5 * 1.5 + 0.2: the push direction is the three-dimensional
    position (0, 1, 2) normalised, with its y then overwritten by 0.5, so the
    horizontal gain is smaller than 0.95. *)
Theorem scenarioB_impulse (vel0 : Vector3.t) :
  Vector3.length (Vector3.mk 0 0 2) = 2 /\
  2 < 2.5 /\
  cubeCollisions (Vector3.mk 0 0 0) 0.5 [scenarioB vel0]
    = [mkCube (Vector3.mk 0 1 2)
              (Vector3.mk (Vector3.x vel0)
                          (Vector3.y vel0 + 0.5 * (0.5 * 1.5 + 0.2))
                          (Vector3.z vel0 + 2 / sqrt 5 * (0.5 * 1.5 + 0.2)))
              false] /\
  2 / sqrt 5 * (0.5 * 1.5 + 0.2) < 0.5 * 1.5 + 0.2.
Proof.
  repeat split.
  - unfold Vector3.length. cbn [Vector3.x Vector3.y Vector3.z].
    replace (0 * 0 + 0 * 0 + 2 * 2) with 4 by lra. apply sqrt_4.
  - lra.
  - unfold cubeCollisions. cbn [map]. rewrite scenarioB_push. reflexivity.
  - pose proof scenarioB_direction_shorter. nra.
Qed.

(** ** Where the revisions differ *)

Lemma updateVelocity_forward (vel : R) :
  - (1.2 * 0.5) <= vel + 0.02 <= 1.2 ->
  updateVelocity keysForward vel = vel + 0.02.
Proof.
  intros H. unfold updateVelocity, keysForward, acceleration, maxSpeed.
  cbn [Keys.forward Keys.brake]. apply clamp_inside. lra.
Qed.

Lemma highway_forward_frame :
  respawned (useFrame Highway (frameOf keysForward [terrainHit]) (cruising 0.98) [])
    = false /\
  velocity (sim (useFrame Highway (frameOf keysForward [terrainHit]) (cruising 0.98) []))
    = 1 /\
  steeringAngle (sim (useFrame Highway (frameOf keysForward [terrainHit])
                               (cruising 0.98) [])) = 0 /\
  worldPosition (sim (useFrame Highway (frameOf keysForward [terrainHit])
                               (cruising 0.98) [])) = Vector3.mk 0 0 1.
Proof.
  assert (Hr : respawned (useFrame Highway (frameOf keysForward [terrainHit])
                                   (cruising 0.98) []) = false).
  { apply useFrame_no_respawn. unfold fallHeight, gravity.
    cbn [cruising carPosition verticalVelocity Vector3.y]. lra. }
  destruct (useFrame_continued _ _ _ _ Hr) as (-> & -> & -> & _).
  destruct (movementPhysics_grounded Highway (keys (frameOf keysForward [terrainHit]))
              (cruising 0.98) eq_refl) as (Hv & Ha).
  destruct (movementPhysics_rest Highway (keys (frameOf keysForward [terrainHit]))
              (cruising 0.98)) as (_ & _ & _ & Hwp & _).
  cbn [keys frameOf cruising velocity steeringAngle worldPosition] in Hv, Ha, Hwp.
  rewrite updateVelocity_forward in Hv, Ha by lra.
  replace (0.98 + 0.02) with 1 in Hv, Ha by lra.
  assert (Ha' : updateSteering Highway keysForward 1 0 = 0).
  { unfold updateSteering, keysForward. cbn [Keys.left Keys.right].
    destruct (Rlt_dec 0.01 (Rabs 1)); [|reflexivity].
    apply clamp_inside. pose proof PI_RGT_0. lra. }
  rewrite Ha' in Ha.
  repeat split; try assumption.
  unfold relativeWorldMovement. sim_cbn.
  cbn [keys frameOf]. rewrite Hv, Ha, Hwp, sin_0, cos_0.
  cbn [Vector3.x Vector3.y Vector3.z]. f_equal; lra.
Qed.

(** C1, as stated, fails in the highway revision: driving straight ahead at
    speed 1, the anchor's z grows by cos(heading) * speed instead of
    decreasing by it. *)
Lemma highway_anchor_moves_forward :
  Vector3.z (worldPosition (sim (useFrame Highway (frameOf keysForward [terrainHit])
                                          (cruising 0.98) [])))
    <> Vector3.z (worldPosition (cruising 0.98))
       - cos (steeringAngle (sim (useFrame Highway (frameOf keysForward [terrainHit])
                                           (cruising 0.98) [])))
         * velocity (sim (useFrame Highway (frameOf keysForward [terrainHit])
                                   (cruising 0.98) [])).
Proof.
  destruct highway_forward_frame as (_ & -> & -> & ->).
  rewrite cos_0. cbn [cruising worldPosition Vector3.z]. lra.
Qed.

(** C1, amended.  In every frame that does not respawn, with heading and
    speed the values the kinematics block left, moveX = sin(heading) * speed
    and moveZ = cos(heading) * speed; the bounded revisions subtract
    (moveX, 0, moveZ) from the anchor's position, the highway revision (whose
    car model is turned to face -Z) adds it. *)
Theorem world_scrolls_by_displacement (v : Variant) (f : Frame) (s : Sim)
    (cubes : list CubeState) :
  respawned (useFrame v f s cubes) = false ->
  worldPosition (sim (useFrame v f s cubes))
    = match v with
      | Highway =>
          Vector3.mk
            (Vector3.x (worldPosition s)
             + sin (steeringAngle (sim (useFrame v f s cubes)))
               * velocity (sim (useFrame v f s cubes)))
            (Vector3.y (worldPosition s))
            (Vector3.z (worldPosition s)
             + cos (steeringAngle (sim (useFrame v f s cubes)))
               * velocity (sim (useFrame v f s cubes)))
      | _ =>
          Vector3.mk
            (Vector3.x (worldPosition s)
             - sin (steeringAngle (sim (useFrame v f s cubes)))
               * velocity (sim (useFrame v f s cubes)))
            (Vector3.y (worldPosition s))
            (Vector3.z (worldPosition s)
             - cos (steeringAngle (sim (useFrame v f s cubes)))
               * velocity (sim (useFrame v f s cubes)))
      end.
Proof.
  intros Hr.
  destruct (useFrame_continued v f s cubes Hr) as (-> & -> & -> & _).
  destruct (movementPhysics_rest v (keys f) s) as (_ & _ & _ & Hwp & _).
  unfold relativeWorldMovement. sim_cbn. rewrite Hwp. destruct v; reflexivity.
Qed.

Lemma world_scrolls_by_displacement_witness :
  worldPosition (sim (useFrame Bounded (frameOf keysForward [terrainHit])
                               (cruising 0.98) []))
    = Vector3.mk
        (0 - sin (steeringAngle (sim (useFrame Bounded (frameOf keysForward [terrainHit])
                                               (cruising 0.98) [])))
             * velocity (sim (useFrame Bounded (frameOf keysForward [terrainHit])
                                       (cruising 0.98) [])))
        0
        (0 - cos (steeringAngle (sim (useFrame Bounded (frameOf keysForward [terrainHit])
                                               (cruising 0.98) [])))
             * velocity (sim (useFrame Bounded (frameOf keysForward [terrainHit])
                                       (cruising 0.98) []))).
Proof.
  apply (world_scrolls_by_displacement Bounded (frameOf keysForward [terrainHit])
           (cruising 0.98) []).
  apply useFrame_no_respawn. unfold fallHeight, gravity.
  cbn [cruising carPosition verticalVelocity Vector3.y]. lra.
Defined.

Lemma porsche_miss_falls (dt : R) (hits : list Intersection) (s : Sim) :
  findTerrain hits = None ->
  isFalling (fst (groundAlignment Porsche dt hits s)) = true.
Proof.
  intros Hm. unfold groundAlignment. destruct (isFalling s) eqn:Hf; cbn [negb fst].
  - exact Hf.
  - rewrite Hm. reflexivity.
Qed.

(** C2, as stated, fails in the Porsche revision: on the first frame after
    mounting, with nothing hit by the raycast (the vehicle has never
    landed), the vehicle starts falling. *)
Lemma porsche_falls_before_first_landing :
  hasLanded (initial Porsche) = false /\
  isFalling (initial Porsche) = false /\
  findTerrain (intersects (frameOf Keys.none [])) = None /\
  isFalling (sim (useFrame Porsche (frameOf Keys.none []) (initial Porsche) [])) = true.
Proof.
  repeat split.
  assert (Hr : respawned (useFrame Porsche (frameOf Keys.none []) (initial Porsche) [])
               = false).
  { apply useFrame_no_respawn. unfold fallHeight, gravity.
    cbn [initial carPosition verticalVelocity Vector3.y]. lra. }
  destruct (useFrame_continued _ _ _ _ Hr) as (_ & _ & _ & ->).
  unfold probed. apply porsche_miss_falls. reflexivity.
Qed.

(** C2, amended.  When the probe block runs on a grounded vehicle:
    in the revisions with a [hasLanded] ref (bounded Lamborghini, highway) a
    miss starts the fall exactly when [hasLanded] is already true, and
    otherwise the block leaves the whole state as it found it; a hit sets
    [hasLanded] and keeps the vehicle grounded.  The Porsche revision has no
    such guard: there every miss starts the fall. *)
Theorem ground_probe_guard (v : Variant) (dt : R) (hits : list Intersection)
    (s : Sim) :
  isFalling s = false ->
  match findTerrain hits with
  | None =>
      fst (groundAlignment v dt hits s)
        = match v with
          | Porsche => set_isFalling true s
          | _ => if hasLanded s then set_isFalling true s else s
          end
  | Some _ =>
      isFalling (fst (groundAlignment v dt hits s)) = false /\
      hasLanded (fst (groundAlignment v dt hits s))
        = match v with Porsche => hasLanded s | _ => true end
  end.
Proof.
  intros Hf. unfold groundAlignment. rewrite Hf. cbn [negb].
  destruct (findTerrain hits) as [hit|].
  - destruct v; cbn [fst]; sim_cbn; split; auto.
  - destruct v; try reflexivity; destruct (hasLanded s); reflexivity.
Qed.

Lemma ground_probe_guard_witness :
  fst (groundAlignment Highway (1 / 60) [] (initial Highway)) = initial Highway.
Proof.
  exact (ground_probe_guard Highway (1 / 60) [] (initial Highway) eq_refl).
Defined.

(** The same at the level of a frame, for the revisions with the guard: a
    miss before the first landing leaves the vehicle grounded and does not
    respawn it. *)
Lemma miss_before_first_landing_tolerated (v : Variant) (f : Frame) (s : Sim)
    (cubes : list CubeState) :
  v <> Porsche ->
  isFalling (scrolled v f s) = false ->
  hasLanded s = false ->
  findTerrain (intersects f) = None ->
  respawned (useFrame v f s cubes) = false /\
  isFalling (sim (useFrame v f s cubes)) = false /\
  hasLanded (sim (useFrame v f s cubes)) = false.
Proof.
  intros Hv Hf Hl Hm.
  assert (Hl' : hasLanded (scrolled v f s) = false).
  { unfold scrolled.
    destruct (checkBounds_rest v (relativeWorldMovement v (movementPhysics v (keys f) s)))
      as (_ & _ & -> & _).
    destruct (relativeWorldMovement_rest v (movementPhysics v (keys f) s))
      as (_ & _ & _ & -> & _).
    destruct (movementPhysics_rest v (keys f) s) as (_ & -> & _). exact Hl. }
  assert (Hp : fst (probed v f s) = scrolled v f s).
  { unfold probed, groundAlignment. rewrite Hf, Hm, Hl'. cbn [negb].
    destruct v; try reflexivity. congruence. }
  assert (Hr : respawned (useFrame v f s cubes) = false).
  { destruct (respawned (useFrame v f s cubes)) eqn:Hr; [|reflexivity].
    destruct (useFrame_respawned v f s cubes Hr) as (_ & _ & _ & _ & H & _).
    congruence. }
  split; [exact Hr|].
  destruct (useFrame_stages v f s cubes) as [-> Hr']. rewrite Hr' in Hr.
  destruct (fallOrStick_continued _ _ _ _ Hr) as (_ & _ & _ & -> & -> & _).
  rewrite Hp. split; assumption.
Qed.

(** C3, as stated, fails: airborne at speed 0.5 with the throttle pressed,
    the frame leaves the speed at 0.5, while the grounded rule gives 0.52. *)
Lemma airborne_throttle_has_no_effect :
  velocity (sim (useFrame Bounded (frameOf keysForward [terrainHit]) (airborne 0.5) []))
    = 0.5 /\
  updateVelocity keysForward (velocity (airborne 0.5)) = 0.52 /\
  velocity (sim (useFrame Bounded (frameOf keysForward [terrainHit]) (airborne 0.5) []))
    <> updateVelocity keysForward (velocity (airborne 0.5)).
Proof.
  assert (Hr : respawned (useFrame Bounded (frameOf keysForward [terrainHit])
                                   (airborne 0.5) []) = false).
  { apply useFrame_no_respawn. unfold fallHeight, gravity.
    cbn [airborne carPosition verticalVelocity Vector3.y]. lra. }
  destruct (useFrame_continued _ _ _ _ Hr) as (-> & _).
  rewrite movementPhysics_falling by reflexivity.
  cbn [airborne velocity]. rewrite updateVelocity_forward by lra.
  repeat split; lra.
Qed.

(** C3, amended.  While falling the kinematics block is skipped whatever the
    keys: the frame leaves speed and heading as they were, unless it runs
    the respawn block, which sets both to 0. *)
Theorem airborne_kinematics_skipped (v : Variant) (f : Frame) (s : Sim)
    (cubes : list CubeState) :
  isFalling s = true ->
  movementPhysics v (keys f) s = s /\
  velocity (sim (useFrame v f s cubes))
    = (if respawned (useFrame v f s cubes) then 0 else velocity s) /\
  steeringAngle (sim (useFrame v f s cubes))
    = (if respawned (useFrame v f s cubes) then 0 else steeringAngle s).
Proof.
  intros Hf. split; [apply movementPhysics_falling, Hf|].
  destruct (respawned (useFrame v f s cubes)) eqn:Hr.
  - destruct (useFrame_respawned v f s cubes Hr) as (-> & -> & _). split; reflexivity.
  - destruct (useFrame_continued v f s cubes Hr) as (-> & -> & _).
    rewrite (movementPhysics_falling v (keys f) s Hf). split; reflexivity.
Qed.

Lemma airborne_kinematics_skipped_witness :
  movementPhysics Highway (keys (frameOf keysForwardLeft [terrainHit])) (airborne 0.5)
    = airborne 0.5 /\
  velocity (sim (useFrame Highway (frameOf keysForwardLeft [terrainHit])
                          (airborne 0.5) []))
    = (if respawned (useFrame Highway (frameOf keysForwardLeft [terrainHit])
                              (airborne 0.5) [])
       then 0 else velocity (airborne 0.5)) /\
  steeringAngle (sim (useFrame Highway (frameOf keysForwardLeft [terrainHit])
                               (airborne 0.5) []))
    = (if respawned (useFrame Highway (frameOf keysForwardLeft [terrainHit])
                              (airborne 0.5) [])
       then 0 else steeringAngle (airborne 0.5)).
Proof.
  apply (airborne_kinematics_skipped Highway (frameOf keysForwardLeft [terrainHit])
           (airborne 0.5) []).
  reflexivity.
Defined.

(** * Further properties of the frame callback *)

(** ** Invariants of runs *)

Lemma useFrame_sim_cubes (v : Variant) (f : Frame) (s : Sim) (cubes : list CubeState) :
  sim (useFrame v f s cubes) = sim (useFrame v f s []).
Proof.
  destruct (useFrame_stages v f s cubes) as [-> _].
  destruct (useFrame_stages v f s []) as [-> _]. reflexivity.
Qed.

Lemma groundAlignment_grounded (v : Variant) (dt : R) (hits : list Intersection) (s : Sim) :
  isFalling (fst (groundAlignment v dt hits s)) = false -> isFalling s = false.
Proof.
  unfold groundAlignment. destruct (isFalling s) eqn:Hf; cbn [negb fst];
    intros; congruence.
Qed.

Lemma checkBounds_grounded (v : Variant) (s : Sim) :
  isFalling (checkBounds v s) = false ->
  isFalling s = false /\ (v <> Highway -> ~ worldRadius < anchorDistance s).
Proof.
  unfold checkBounds, anchorDistance. destruct v.
  - destruct (Rlt_dec _ _); sim_cbn; [discriminate|]. intros H. split; auto.
  - intros H. split; [exact H|]. intros Hv. congruence.
  - destruct (Rlt_dec _ _); sim_cbn; [discriminate|]. intros H. split; auto.
Qed.

Lemma fallOrStick_verticalVelocity (v : Variant) (dt groundY : R) (s : Sim) :
  snd (fallOrStick v dt groundY s) = false ->
  verticalVelocity (fst (fallOrStick v dt groundY s))
    = (if isFalling s then verticalVelocity s - gravity else verticalVelocity s).
Proof.
  unfold fallOrStick. destruct (isFalling s); sim_cbn.
  - destruct (Rlt_dec _ _); sim_cbn; [discriminate|]. reflexivity.
  - reflexivity.
Qed.

Lemma useFrame_grounded_after (v : Variant) (f : Frame) (s : Sim) (cubes : list CubeState) :
  respawned (useFrame v f s cubes) = false ->
  isFalling (sim (useFrame v f s cubes)) = false ->
  isFalling s = false /\ isFalling (scrolled v f s) = false.
Proof.
  intros Hr Hf.
  destruct (useFrame_continued v f s cubes Hr) as (_ & _ & _ & Hf').
  rewrite Hf' in Hf. unfold probed in Hf.
  apply groundAlignment_grounded in Hf. split; [|exact Hf].
  destruct (isFalling s) eqn:E; [|reflexivity].
  rewrite (scrolled_falling v f s E) in Hf. discriminate.
Qed.

Lemma updateSteering_highway_envelope (k : Keys.t) (vel angle : R) :
  - PI / 3 <= angle <= PI / 3 ->
  - PI / 3 <= updateSteering Highway k vel angle <= PI / 3.
Proof.
  intros Ha. unfold updateSteering.
  destruct (Rlt_dec 0.01 (Rabs vel)); [|exact Ha].
  apply clamp_bounds. pose proof PI_RGT_0. lra.
Qed.

Lemma highway_envelope (s : Sim) :
  reachable Highway s -> - PI / 3 <= steeringAngle s <= PI / 3.
Proof.
  pose proof PI_RGT_0 as Hpi.
  induction 1 as [|f s cubes _ IH].
  - cbn [initial steeringAngle]. lra.
  - destruct (respawned (useFrame Highway f s cubes)) eqn:Hr.
    + destruct (useFrame_respawned Highway f s cubes Hr) as (_ & -> & _). lra.
    + destruct (useFrame_continued Highway f s cubes Hr) as (_ & -> & _).
      destruct (isFalling s) eqn:Hf.
      * rewrite movementPhysics_falling by exact Hf. exact IH.
      * destruct (movementPhysics_grounded Highway (keys f) s Hf) as (_ & ->).
        apply updateSteering_highway_envelope, IH.
Qed.

(** X1.  In the highway revision the heading never leaves the steering
    envelope [-PI/3, PI/3], in any state reachable from the mounted scene. *)
Theorem highway_heading_in_envelope (s : Sim) :
  reachable Highway s -> - PI / 3 <= steeringAngle s <= PI / 3.
Proof. exact (highway_envelope s). Qed.

Lemma highway_heading_in_envelope_witness :
  - PI / 3
  <= steeringAngle (sim (useFrame Highway (frameOf keysForwardLeft [terrainHit])
                                  (initial Highway) []))
  <= PI / 3.
Proof.
  apply (highway_heading_in_envelope
           (sim (useFrame Highway (frameOf keysForwardLeft [terrainHit])
                          (initial Highway) []))).
  apply reachable_frame, reachable_initial.
Defined.

(** The first frame after mounting, with the throttle held and the terrain
    under the car: the vehicle moves 0.02 and stays on the ground. *)
Lemma first_throttle_frame_grounded (v : Variant) :
  respawned (useFrame v (frameOf keysForward [terrainHit]) (initial v) []) = false /\
  isFalling (sim (useFrame v (frameOf keysForward [terrainHit]) (initial v) []))
    = false.
Proof.
  assert (Hr : respawned (useFrame v (frameOf keysForward [terrainHit])
                                   (initial v) []) = false).
  { apply useFrame_no_respawn. unfold fallHeight, gravity.
    cbn [initial carPosition verticalVelocity Vector3.y]. destruct v; lra. }
  split; [exact Hr|].
  destruct (useFrame_continued _ _ _ _ Hr) as (_ & _ & _ & ->).
  assert (Hsc : isFalling (scrolled v (frameOf keysForward [terrainHit]) (initial v))
                = false).
  { unfold scrolled, checkBounds.
    assert (Hm : movementPhysics v (keys (frameOf keysForward [terrainHit])) (initial v)
                 = set_steeringAngle 0 (set_velocity 0.02 (initial v))).
    { unfold movementPhysics. cbn [initial isFalling negb velocity steeringAngle keys frameOf].
      rewrite updateVelocity_forward by lra.
      replace (0 + 0.02) with 0.02 by lra.
      unfold updateSteering, keysForward. cbn [Keys.left Keys.right].
      destruct (Rlt_dec _ _); destruct v; try reflexivity.
      rewrite clamp_inside by (pose proof PI_RGT_0; lra). reflexivity. }
    rewrite Hm. unfold relativeWorldMovement. sim_cbn.
    cbn [initial set_velocity set_steeringAngle velocity steeringAngle worldPosition Vector3.zero Vector3.x Vector3.y Vector3.z set_worldPosition set_worldRotation isFalling].
    rewrite sin_0, cos_0.
    destruct v; [|reflexivity|].
    all: destruct (Rlt_dec _ _) as [Hlt|_]; [exfalso|reflexivity].
    all: cbn [Vector3.x Vector3.z] in Hlt; unfold worldRadius in Hlt.
    all: assert (Hs : sqrt ((0 - 0 * 0.02) * (0 - 0 * 0.02)
                             + (0 - 1 * 0.02) * (0 - 1 * 0.02)) <= sqrt (400 * 400))
      by (apply sqrt_le_1_alt; lra).
    all: rewrite sqrt_square in Hs by lra; lra. }
  unfold probed, groundAlignment. rewrite Hsc. cbn [negb].
  cbn [intersects frameOf findTerrain find].
  change (objectName terrainHit =? "Terrain")%string with true. cbv iota.
  destruct v; sim_cbn; exact Hsc.
Qed.

(** X2.  In the bounded revisions a frame never ends with the vehicle
    grounded outside the platform: in every reachable state that is not
    falling, the anchor is at most [worldRadius] = 400 from the origin. *)
Theorem grounded_within_world_radius (v : Variant) (s : Sim) :
  v <> Highway ->
  reachable v s ->
  isFalling s = false ->
  anchorDistance s <= 400.
Proof.
  intros Hv Hreach. destruct Hreach as [|f s cubes _]; intros Hf.
  - unfold anchorDistance. cbn [initial worldPosition Vector3.zero Vector3.x Vector3.z].
    replace (0 * 0 + 0 * 0) with 0 by lra. rewrite sqrt_0. lra.
  - destruct (respawned (useFrame v f s cubes)) eqn:Hr.
    + unfold anchorDistance.
      destruct (useFrame_stages v f s cubes) as [Hs Hr']. rewrite Hs.
      rewrite Hr' in Hr. rewrite (fallOrStick_respawned_world _ _ _ _ Hr).
      destruct v; try congruence; cbn [Vector3.x Vector3.z];
        replace (0 * 0 + 0 * 0) with 0 by lra; rewrite sqrt_0; lra.
    + destruct (useFrame_grounded_after v f s cubes Hr Hf) as (_ & Hsc).
      unfold scrolled in Hsc. apply checkBounds_grounded in Hsc.
      destruct Hsc as (_ & Hb). specialize (Hb Hv).
      destruct (useFrame_continued v f s cubes Hr) as (_ & _ & Hwp & _).
      unfold anchorDistance in *. rewrite Hwp.
      unfold worldRadius in Hb. lra.
Qed.

Lemma grounded_within_world_radius_witness :
  isFalling (sim (useFrame Bounded (frameOf keysForward [terrainHit])
                           (initial Bounded) [])) = false /\
  anchorDistance (sim (useFrame Bounded (frameOf keysForward [terrainHit])
                                (initial Bounded) [])) <= 400.
Proof.
  split; [exact (proj2 (first_throttle_frame_grounded Bounded))|].
  apply (grounded_within_world_radius Bounded
           (sim (useFrame Bounded (frameOf keysForward [terrainHit])
                          (initial Bounded) []))).
  - discriminate.
  - apply reachable_frame, reachable_initial.
  - exact (proj2 (first_throttle_frame_grounded Bounded)).
Defined.

Lemma vertical_velocity_invariant (v : Variant) (s : Sim) :
  reachable v s ->
  if isFalling s then verticalVelocity s <= - gravity else verticalVelocity s = 0.
Proof.
  induction 1 as [|f s cubes _ IH].
  - reflexivity.
  - destruct (respawned (useFrame v f s cubes)) eqn:Hr.
    + destruct (useFrame_respawned v f s cubes Hr) as (_ & _ & -> & -> & _).
      reflexivity.
    + destruct (useFrame_stages v f s cubes) as [Hs Hr']. rewrite Hr' in Hr.
      pose proof (fallOrStick_verticalVelocity _ _ _ _ Hr) as Hvv.
      destruct (fallOrStick_continued _ _ _ _ Hr) as (_ & _ & _ & Hf' & _).
      rewrite Hs, Hvv, Hf'.
      destruct (probed_kinematics v f s) as (_ & _ & -> & _).
      destruct (isFalling (fst (probed v f s))) eqn:Hp.
      * unfold gravity in *. destruct (isFalling s); lra.
      * unfold probed in Hp. apply groundAlignment_grounded in Hp.
        destruct (isFalling s) eqn:E; [|exact IH].
        rewrite (scrolled_falling v f s E) in Hp. discriminate.
Qed.

(** X3.  In every reachable state a grounded vehicle has vertical velocity
    exactly 0, and a falling vehicle moves downwards with vertical velocity
    at most -0.005 (one step of gravity). *)
Theorem grounded_has_no_vertical_velocity (v : Variant) (s : Sim) :
  reachable v s ->
  (if isFalling s then verticalVelocity s <= - 0.005 else verticalVelocity s = 0).
Proof.
  intros H. pose proof (vertical_velocity_invariant v s H) as Hi.
  unfold gravity in Hi. destruct (isFalling s); [lra | exact Hi].
Qed.

(** The first frame after mounting the Porsche with nothing under it: the
    probe misses and the vehicle starts to fall, with one step of gravity. *)
Lemma porsche_first_miss_frame :
  respawned (useFrame Porsche (frameOf Keys.none []) (initial Porsche) []) = false /\
  isFalling (sim (useFrame Porsche (frameOf Keys.none []) (initial Porsche) []))
    = true.
Proof.
  assert (Hr : respawned (useFrame Porsche (frameOf Keys.none [])
                                   (initial Porsche) []) = false).
  { apply useFrame_no_respawn. unfold fallHeight, gravity.
    cbn [initial carPosition verticalVelocity Vector3.y]. lra. }
  split; [exact Hr|].
  destruct (useFrame_continued _ _ _ _ Hr) as (_ & _ & _ & ->).
  unfold probed. apply porsche_miss_falls. reflexivity.
Qed.

Lemma grounded_has_no_vertical_velocity_witness :
  (isFalling (sim (useFrame Bounded (frameOf keysForward [terrainHit])
                            (initial Bounded) [])) = false /\
   verticalVelocity (sim (useFrame Bounded (frameOf keysForward [terrainHit])
                                   (initial Bounded) [])) = 0) /\
  (isFalling (sim (useFrame Porsche (frameOf Keys.none [])
                            (initial Porsche) [])) = true /\
   verticalVelocity (sim (useFrame Porsche (frameOf Keys.none [])
                                   (initial Porsche) [])) <= - 0.005).
Proof.
  split; split.
  - exact (proj2 (first_throttle_frame_grounded Bounded)).
  - generalize (grounded_has_no_vertical_velocity Bounded
                  (sim (useFrame Bounded (frameOf keysForward [terrainHit])
                                 (initial Bounded) []))
                  (reachable_frame Bounded _ _ _ (reachable_initial Bounded))).
    rewrite (proj2 (first_throttle_frame_grounded Bounded)). exact (fun H => H).
  - exact (proj2 porsche_first_miss_frame).
  - generalize (grounded_has_no_vertical_velocity Porsche
                  (sim (useFrame Porsche (frameOf Keys.none [])
                                 (initial Porsche) []))
                  (reachable_frame Porsche _ _ _ (reachable_initial Porsche))).
    rewrite (proj2 porsche_first_miss_frame). exact (fun H => H).
Defined.

(** ** Free fall *)

Lemma fallOrStick_falling_state (v : Variant) (dt groundY : R) (s : Sim) :
  isFalling s = true ->
  ~ fallHeight s < -20 ->
  fst (fallOrStick v dt groundY s)
    = set_carPosition (Vector3.set_y (fallHeight s) (carPosition s))
        (set_verticalVelocity (verticalVelocity s - gravity) s).
Proof.
  intros Hf Hh. unfold fallOrStick, fallHeight in *. rewrite Hf. sim_cbn.
  destruct (Rlt_dec _ _) as [Hlt|_]; [contradiction|]. reflexivity.
Qed.

Lemma useFrame_falling_continued (v : Variant) (f : Frame) (s : Sim)
    (cubes : list CubeState) :
  isFalling s = true ->
  ~ fallHeight s < -20 ->
  isFalling (sim (useFrame v f s cubes)) = true /\
  verticalVelocity (sim (useFrame v f s cubes)) = verticalVelocity s - gravity /\
  Vector3.y (carPosition (sim (useFrame v f s cubes))) = fallHeight s /\
  velocity (sim (useFrame v f s cubes)) = velocity s /\
  steeringAngle (sim (useFrame v f s cubes)) = steeringAngle s.
Proof.
  intros Hf Hh.
  destruct (useFrame_stages v f s cubes) as [-> _].
  rewrite (probed_falling v f s Hf). cbn [fst snd].
  destruct (scrolled_kinematics v f s) as (Hv & Ha & Hvv & Hcp & _).
  assert (Hh' : ~ fallHeight (scrolled v f s) < -20).
  { unfold fallHeight in *. rewrite Hvv, Hcp. exact Hh. }
  rewrite (fallOrStick_falling_state v (delta f) (-100) _
             (scrolled_falling v f s Hf) Hh').
  sim_cbn. rewrite (scrolled_falling v f s Hf), Hvv, Hv, Ha.
  rewrite (movementPhysics_falling v (keys f) s Hf).
  unfold fallHeight. rewrite Hvv, Hcp. repeat split; reflexivity.
Qed.

(** X4.  Free fall in closed form: a vehicle that is falling with vertical
    velocity vv <= 0 at height y is, after n frames, still falling with
    vertical velocity vv - 0.005 n at height
    y + n vv - 0.005 n (n + 1) / 2, with speed and heading untouched,
    provided this height has not dropped below the respawn depth -20. *)
Theorem free_fall_closed_form (v : Variant) (frames : list Frame) (s : Sim) :
  isFalling s = true ->
  verticalVelocity s <= 0 ->
  -20 <= Vector3.y (carPosition s)
         + INR (List.length frames) * verticalVelocity s
         - 0.005 * (INR (List.length frames) * (INR (List.length frames) + 1) / 2) ->
  isFalling (run v frames s) = true /\
  verticalVelocity (run v frames s)
    = verticalVelocity s - 0.005 * INR (List.length frames) /\
  Vector3.y (carPosition (run v frames s))
    = Vector3.y (carPosition s)
      + INR (List.length frames) * verticalVelocity s
      - 0.005 * (INR (List.length frames) * (INR (List.length frames) + 1) / 2) /\
  velocity (run v frames s) = velocity s /\
  steeringAngle (run v frames s) = steeringAngle s.
Proof.
  revert s. induction frames as [|f frames IH]; intros s Hf Hvv Hy.
  - cbn [run List.length INR]. repeat split; try assumption; lra.
  - cbn [run List.length]. cbn [List.length] in Hy. rewrite S_INR in *.
    pose proof (pos_INR (List.length frames)) as Hn.
    assert (Hh : ~ fallHeight s < -20).
    { unfold fallHeight, gravity. nra. }
    destruct (useFrame_falling_continued v f s [] Hf Hh)
      as (Hf1 & Hvv1 & Hy1 & Hv1 & Ha1).
    unfold fallHeight, gravity in *.
    destruct (IH (sim (useFrame v f s [])) Hf1) as (H1 & H2 & H3 & H4 & H5).
    + rewrite Hvv1. lra.
    + rewrite Hvv1, Hy1. nra.
    + rewrite H2, H3, H4, H5, Hvv1, Hy1, Hv1, Ha1.
      repeat split; try assumption; try reflexivity; nra.
Qed.

Lemma free_fall_closed_form_witness :
  Vector3.y (carPosition (run Bounded [frameOf Keys.none []; frameOf Keys.none []]
                              (airborne 0.5)))
    = 0 + INR 2 * 0 - 0.005 * (INR 2 * (INR 2 + 1) / 2).
Proof.
  apply (free_fall_closed_form Bounded [frameOf Keys.none []; frameOf Keys.none []]
           (airborne 0.5)).
  - reflexivity.
  - cbn [airborne verticalVelocity]. lra.
  - cbn [airborne carPosition verticalVelocity Vector3.y List.length INR]. lra.
Defined.

(** ** Throttle, coasting and steering *)

Lemma updateVelocity_throttle (k : Keys.t) (vel : R) :
  Keys.forward k = true -> Keys.brake k = false ->
  - (1.2 * 0.5) <= vel + 0.02 ->
  updateVelocity k vel = Rmin (vel + 0.02) 1.2.
Proof.
  intros Hf Hb Hv. unfold updateVelocity, acceleration, maxSpeed, MathUtils.clamp.
  rewrite Hf, Hb. rewrite Rmin_comm. apply Rmax_right.
  apply Rmin_glb; lra.
Qed.

Lemma highway_hit_stays_grounded (f : Frame) (s : Sim) (cubes : list CubeState) :
  isFalling s = false ->
  findTerrain (intersects f) <> None ->
  respawned (useFrame Highway f s cubes) = false /\
  isFalling (sim (useFrame Highway f s cubes)) = false.
Proof.
  intros Hf Hhit.
  assert (Hsc : isFalling (scrolled Highway f s) = false).
  { unfold scrolled. cbn [checkBounds].
    destruct (relativeWorldMovement_rest Highway (movementPhysics Highway (keys f) s))
      as (_ & _ & -> & _).
    destruct (movementPhysics_rest Highway (keys f) s) as (-> & _). exact Hf. }
  assert (Hp : isFalling (fst (probed Highway f s)) = false).
  { unfold probed, groundAlignment. rewrite Hsc. cbn [negb].
    destruct (findTerrain (intersects f)); [|congruence]. sim_cbn. exact Hsc. }
  assert (Hr : respawned (useFrame Highway f s cubes) = false).
  { destruct (respawned (useFrame Highway f s cubes)) eqn:Hr; [|reflexivity].
    destruct (useFrame_respawned Highway f s cubes Hr) as (_ & _ & _ & _ & H & _).
    congruence. }
  split; [exact Hr|].
  destruct (useFrame_continued Highway f s cubes Hr) as (_ & _ & _ & ->). exact Hp.
Qed.

(** X5.  Holding the throttle on the highway, with ground under the car in
    every frame: from speed v0 the speed after n frames is
    min(v0 + 0.02 n, 1.2).  From rest it reaches maxSpeed after 60 frames
    and stays there. *)
Theorem throttle_ramp (frames : list Frame) (s : Sim) :
  isFalling s = false ->
  - (1.2 * 0.5) <= velocity s <= 1.2 ->
  Forall throttleFrame frames ->
  isFalling (run Highway frames s) = false /\
  velocity (run Highway frames s)
    = Rmin (velocity s + 0.02 * INR (List.length frames)) 1.2.
Proof.
  revert s. induction frames as [|f frames IH]; intros s Hf Hv Hall.
  - cbn [run List.length INR]. split; [exact Hf|].
    rewrite Rmin_left; lra.
  - cbn [run List.length]. rewrite S_INR.
    pose proof (pos_INR (List.length frames)) as Hn.
    inversion Hall as [|f' fs' (Hfw & Hbr & Hhit) Hrest]; subst.
    destruct (highway_hit_stays_grounded f s [] Hf Hhit) as (Hr & Hf1).
    destruct (useFrame_continued Highway f s [] Hr) as (Hv1 & _).
    destruct (movementPhysics_grounded Highway (keys f) s Hf) as (Hv2 & _).
    rewrite Hv2, (updateVelocity_throttle (keys f) (velocity s) Hfw Hbr) in Hv1
      by lra.
    destruct (IH (sim (useFrame Highway f s [])) Hf1) as (H1 & H2).
    + rewrite Hv1. unfold Rmin. destruct (Rle_dec _ _); lra.
    + exact Hrest.
    + split; [exact H1|]. rewrite H2, Hv1.
      unfold Rmin. repeat destruct (Rle_dec _ _); lra.
Qed.

Lemma throttle_ramp_witness :
  isFalling (run Highway [frameOf keysForward [terrainHit]] (cruising 0)) = false /\
  velocity (run Highway [frameOf keysForward [terrainHit]] (cruising 0))
    = Rmin (0 + 0.02 * INR 1) 1.2.
Proof.
  apply (throttle_ramp [frameOf keysForward [terrainHit]] (cruising 0)).
  - reflexivity.
  - cbn [cruising velocity]. lra.
  - constructor; [|constructor].
    unfold throttleFrame. cbn. repeat split. discriminate.
Defined.

Lemma updateVelocity_coast (k : Keys.t) (vel : R) :
  Keys.forward k = false -> Keys.backward k = false ->
  Rabs (updateVelocity k vel) <= 0.985 * Rabs vel /\
  0 <= updateVelocity k vel * vel.
Proof.
  intros Hf Hb. unfold updateVelocity, friction, maxSpeed, MathUtils.clamp.
  rewrite Hf, Hb.
  destruct (Keys.brake k); unfold Rmax, Rmin, Rabs;
    repeat destruct (Rle_dec _ _); repeat destruct (Rcase_abs _); split; nra.
Qed.

(** X6.  Coasting (neither forward nor backward pressed, brake or not): in a
    grounded frame that does not respawn the speed shrinks at least by the
    friction factor, |speed'| <= 0.985 |speed|, and never changes sign. *)
Theorem coasting_decays (v : Variant) (f : Frame) (s : Sim) (cubes : list CubeState) :
  isFalling s = false ->
  Keys.forward (keys f) = false ->
  Keys.backward (keys f) = false ->
  respawned (useFrame v f s cubes) = false ->
  Rabs (velocity (sim (useFrame v f s cubes))) <= 0.985 * Rabs (velocity s) /\
  0 <= velocity (sim (useFrame v f s cubes)) * velocity s.
Proof.
  intros Hf Hfw Hbw Hr.
  destruct (useFrame_continued v f s cubes Hr) as (-> & _).
  destruct (movementPhysics_grounded v (keys f) s Hf) as (-> & _).
  apply updateVelocity_coast; assumption.
Qed.

Lemma coasting_decays_witness :
  Rabs (velocity (sim (useFrame Bounded (frameOf keysLeft [terrainHit])
                                (cruising 1) [])))
    <= 0.985 * Rabs (velocity (cruising 1)) /\
  0 <= velocity (sim (useFrame Bounded (frameOf keysLeft [terrainHit])
                               (cruising 1) []))
       * velocity (cruising 1).
Proof.
  apply (coasting_decays Bounded (frameOf keysLeft [terrainHit]) (cruising 1) []);
    try reflexivity.
  apply useFrame_no_respawn. unfold fallHeight, gravity.
  cbn [cruising carPosition verticalVelocity Vector3.y]. lra.
Defined.

Lemma updateSteering_increment (v : Variant) (k : Keys.t) (vel angle : R) :
  v <> Highway ->
  0.01 < Rabs vel ->
  updateSteering v k vel angle
    = angle
      + ((if Keys.left k then 1 else 0) - (if Keys.right k then 1 else 0))
        * (0.05 * vel / 1.2).
Proof.
  intros Hv Habs. unfold updateSteering, turnSpeed, maxSpeed.
  destruct (Rlt_dec 0.01 (Rabs vel)) as [_|Hn]; [|contradiction].
  assert (Hstep : 0.05 * (Rabs vel / 1.2) * (if Rlt_dec 0 vel then 1 else -1)
                  = 0.05 * vel / 1.2).
  { revert Habs. unfold Rabs. destruct (Rcase_abs vel); destruct (Rlt_dec 0 vel);
      intros; lra. }
  destruct v; try congruence;
    destruct (Keys.left k), (Keys.right k); rewrite ?Hstep; lra.
Qed.

(** X7.  Steering in the bounded revisions, in a grounded frame that does
    not respawn and ends with |speed| above the deadzone 0.01: the heading
    changes by exactly (left - right) * 0.05 * speed / 1.2, with the signed
    speed.  So left and right together cancel, the turn rate grows with the
    speed up to 0.05 per frame, and the turn is mirrored in reverse gear. *)
Theorem steering_increment (v : Variant) (f : Frame) (s : Sim) (cubes : list CubeState) :
  v <> Highway ->
  isFalling s = false ->
  respawned (useFrame v f s cubes) = false ->
  0.01 < Rabs (velocity (sim (useFrame v f s cubes))) ->
  steeringAngle (sim (useFrame v f s cubes))
    = steeringAngle s
      + ((if Keys.left (keys f) then 1 else 0) - (if Keys.right (keys f) then 1 else 0))
        * (0.05 * velocity (sim (useFrame v f s cubes)) / 1.2).
Proof.
  intros Hv Hf Hr.
  destruct (useFrame_continued v f s cubes Hr) as (-> & -> & _).
  destruct (movementPhysics_grounded v (keys f) s Hf) as (-> & ->).
  intros Habs. apply updateSteering_increment; assumption.
Qed.

Lemma steering_increment_witness :
  steeringAngle (sim (useFrame Bounded (frameOf keysLeft [terrainHit]) (cruising 1) []))
    = steeringAngle (cruising 1)
      + ((if Keys.left (keys (frameOf keysLeft [terrainHit])) then 1 else 0)
         - (if Keys.right (keys (frameOf keysLeft [terrainHit])) then 1 else 0))
        * (0.05 * velocity (sim (useFrame Bounded (frameOf keysLeft [terrainHit])
                                          (cruising 1) [])) / 1.2).
Proof.
  assert (Hr : respawned (useFrame Bounded (frameOf keysLeft [terrainHit])
                                   (cruising 1) []) = false).
  { apply useFrame_no_respawn. unfold fallHeight, gravity.
    cbn [cruising carPosition verticalVelocity Vector3.y]. lra. }
  apply (steering_increment Bounded (frameOf keysLeft [terrainHit]) (cruising 1) []).
  - discriminate.
  - reflexivity.
  - exact Hr.
  - destruct (useFrame_continued _ _ _ _ Hr) as (-> & _).
    destruct (movementPhysics_grounded Bounded (keys (frameOf keysLeft [terrainHit]))
                (cruising 1) eq_refl) as (-> & _).
    unfold updateVelocity, friction, maxSpeed.
    cbn [keys frameOf keysLeft Keys.forward Keys.backward Keys.brake cruising velocity].
    rewrite clamp_inside by lra. rewrite Rabs_pos_eq; lra.
Defined.

(** X8.  On the highway the anchor never scrolls backwards while the car
    moves forwards: from any reachable state, a frame that does not respawn
    and ends with speed >= 0 moves the anchor's z forwards, by at most
    maxSpeed = 1.2.  (The segment recycling of the road relies on this.) *)
Theorem highway_anchor_monotone (f : Frame) (s : Sim) (cubes : list CubeState) :
  reachable Highway s ->
  respawned (useFrame Highway f s cubes) = false ->
  0 <= velocity (sim (useFrame Highway f s cubes)) ->
  Vector3.z (worldPosition s)
  <= Vector3.z (worldPosition (sim (useFrame Highway f s cubes)))
  <= Vector3.z (worldPosition s) + 1.2.
Proof.
  intros Hreach Hr Hv.
  pose proof (highway_envelope _ (reachable_frame Highway f s cubes Hreach)) as Henv.
  pose proof (reachable_speed_clamped _ _ (reachable_frame Highway f s cubes Hreach))
    as Hsp.
  pose proof PI_RGT_0 as Hpi.
  assert (Hcos : 0 < cos (steeringAngle (sim (useFrame Highway f s cubes))))
    by (apply cos_gt_0; lra).
  pose proof (COS_bound (steeringAngle (sim (useFrame Highway f s cubes)))) as Hcb.
  destruct (useFrame_continued Highway f s cubes Hr) as (Hvel & Hang & Hwp & _).
  rewrite Hwp. rewrite Hvel in Hv, Hsp. rewrite Hang in Hcos, Hcb.
  destruct (movementPhysics_rest Highway (keys f) s) as (_ & _ & _ & Hwp' & _).
  unfold relativeWorldMovement. sim_cbn. rewrite Hwp'. split; nra.
Qed.

Lemma highway_anchor_monotone_witness :
  Vector3.z (worldPosition (initial Highway))
  <= Vector3.z (worldPosition (sim (useFrame Highway (frameOf keysForward [terrainHit])
                                             (initial Highway) [])))
  <= Vector3.z (worldPosition (initial Highway)) + 1.2.
Proof.
  assert (Hr : respawned (useFrame Highway (frameOf keysForward [terrainHit])
                                   (initial Highway) []) = false).
  { apply useFrame_no_respawn. unfold fallHeight, gravity.
    cbn [initial carPosition verticalVelocity Vector3.y]. lra. }
  apply (highway_anchor_monotone (frameOf keysForward [terrainHit]) (initial Highway) []).
  - apply reachable_initial.
  - exact Hr.
  - destruct (useFrame_continued _ _ _ _ Hr) as (-> & _).
    destruct (movementPhysics_grounded Highway (keys (frameOf keysForward [terrainHit]))
                (initial Highway) eq_refl) as (-> & _).
    cbn [keys frameOf initial velocity].
    rewrite updateVelocity_forward by lra. lra.
Defined.

Lemma groundAlignment_hasLanded (v : Variant) (dt : R) (hits : list Intersection)
    (s : Sim) :
  hasLanded s = true -> hasLanded (fst (groundAlignment v dt hits s)) = true.
Proof.
  intros H. unfold groundAlignment. destruct (negb (isFalling s)); [|exact H].
  destruct (findTerrain hits).
  - destruct v; sim_cbn; auto.
  - destruct v; try rewrite H; sim_cbn; auto.
Qed.

Lemma fallOrStick_respawned_hasLanded (v : Variant) (dt groundY : R) (s : Sim) :
  v <> Porsche ->
  snd (fallOrStick v dt groundY s) = true ->
  hasLanded (fst (fallOrStick v dt groundY s)) = false.
Proof.
  intros Hv. unfold fallOrStick. destruct (isFalling s); sim_cbn.
  - destruct (Rlt_dec _ _); sim_cbn; [|discriminate].
    intros _. destruct v; try reflexivity. congruence.
  - discriminate.
Qed.

(** X9.  In the revisions with a [hasLanded] ref, once the vehicle has
    landed the flag stays set through every frame, whatever the raycast
    returns, until a frame runs the respawn block, which clears it. *)
Theorem hasLanded_until_respawn (v : Variant) (f : Frame) (s : Sim)
    (cubes : list CubeState) :
  v <> Porsche ->
  hasLanded s = true ->
  hasLanded (sim (useFrame v f s cubes)) = negb (respawned (useFrame v f s cubes)).
Proof.
  intros Hv Hl.
  assert (Hp : hasLanded (fst (probed v f s)) = true).
  { unfold probed. apply groundAlignment_hasLanded. unfold scrolled.
    destruct (checkBounds_rest v (relativeWorldMovement v (movementPhysics v (keys f) s)))
      as (_ & _ & -> & _).
    destruct (relativeWorldMovement_rest v (movementPhysics v (keys f) s))
      as (_ & _ & _ & -> & _).
    destruct (movementPhysics_rest v (keys f) s) as (_ & -> & _). exact Hl. }
  destruct (useFrame_stages v f s cubes) as [-> ->].
  destruct (snd (fallOrStick v (delta f) (snd (probed v f s)) (fst (probed v f s))))
    eqn:Hr; cbn [negb].
  - apply fallOrStick_respawned_hasLanded; assumption.
  - destruct (fallOrStick_continued _ _ _ _ Hr) as (_ & _ & _ & _ & -> & _). exact Hp.
Qed.

Lemma hasLanded_until_respawn_witness :
  hasLanded (sim (useFrame Highway (frameOf Keys.none []) (cruising 0.5) []))
    = negb (respawned (useFrame Highway (frameOf Keys.none []) (cruising 0.5) [])).
Proof.
  apply (hasLanded_until_respawn Highway (frameOf Keys.none []) (cruising 0.5) []).
  - discriminate.
  - reflexivity.
Defined.

(** ** Cube collisions *)

Lemma pushCube_frame (worldPos : Vector3.t) (vel : R) (cube : CubeState) :
  position (pushCube worldPos vel cube) = position cube /\
  fallen (pushCube worldPos vel cube) = fallen cube.
Proof.
  unfold pushCube. destruct (fallen cube) eqn:Hf; [split; auto|].
  cbv zeta. destruct (Rlt_dec _ _); split; auto.
Qed.

(** X10.  The collision pass is one-sided and touches velocities only: it
    keeps the number of cubes, every cube's position and every cube's
    [fallen] flag, and it leaves a fallen cube entirely alone. *)
Theorem cubeCollisions_only_velocities (worldPos : Vector3.t) (vel : R)
    (cubes : list CubeState) :
  List.length (cubeCollisions worldPos vel cubes) = List.length cubes /\
  map position (cubeCollisions worldPos vel cubes) = map position cubes /\
  map fallen (cubeCollisions worldPos vel cubes) = map fallen cubes /\
  filter fallen (cubeCollisions worldPos vel cubes) = filter fallen cubes.
Proof.
  unfold cubeCollisions. split; [apply length_map|].
  induction cubes as [|cube cubes (IHp & IHf & IHff)]; [repeat split|].
  cbn [map filter].
  destruct (pushCube_frame worldPos vel cube) as (Hp & Hf).
  rewrite Hp, Hf, IHp, IHf. repeat split.
  destruct (fallen cube) eqn:E; [|exact IHff].
  rewrite IHff. f_equal. unfold pushCube. rewrite E. reflexivity.
Qed.

Lemma normalize_planar_le_1 (a : Vector3.t) :
  Vector3.x (Vector3.normalize a) * Vector3.x (Vector3.normalize a)
  + Vector3.z (Vector3.normalize a) * Vector3.z (Vector3.normalize a) <= 1.
Proof.
  unfold Vector3.normalize, Vector3.divideScalar, Vector3.multiplyScalar, Vector3.length.
  cbn [Vector3.x Vector3.y Vector3.z].
  set (S := Vector3.x a * Vector3.x a + Vector3.y a * Vector3.y a
            + Vector3.z a * Vector3.z a).
  assert (HS : 0 <= S) by (unfold S; nra).
  destruct (Req_dec_T (sqrt S) 0) as [H0|Hn].
  - apply sqrt_eq_0 in H0; [|exact HS].
    assert (Vector3.x a = 0 /\ Vector3.z a = 0) as [-> ->] by (unfold S in H0; split; nra).
    lra.
  - pose proof (sqrt_sqrt S HS) as Hsq.
    pose proof (sqrt_pos S) as Hpos.
    assert (HL : 0 < sqrt S) by lra.
    set (L := sqrt S) in *.
    assert (Hx : Vector3.x a * (1 / L) * (Vector3.x a * (1 / L))
                 + Vector3.z a * (1 / L) * (Vector3.z a * (1 / L))
                 = (Vector3.x a * Vector3.x a + Vector3.z a * Vector3.z a) / (L * L))
      by (field; lra).
    rewrite Hx, Hsq.
    assert (HSpos : 0 < S) by nra.
    apply Rmult_le_reg_r with S; [exact HSpos|].
    unfold Rdiv. rewrite Rmult_assoc, Rinv_l by lra. unfold S. nra.
Qed.

(** X11.  A cube in contact (not fallen, planar distance to the car below
    2.5) is pushed even by a parked car.  With k = |speed| * 1.5 + 0.2 >= 0.2
    its upward velocity grows by exactly k / 2, and its horizontal velocity
    changes by a vector of length at most k. *)
Theorem contact_impulse (worldPos : Vector3.t) (vel : R) (cube : CubeState) :
  fallen cube = false ->
  Vector3.length
    (Vector3.mk (Vector3.x (Vector3.add (position cube) worldPos)) 0
                (Vector3.z (Vector3.add (position cube) worldPos))) < 2.5 ->
  0.2 <= Rabs vel * 1.5 + 0.2 /\
  Vector3.y (cubeVelocity (pushCube worldPos vel cube))
    = Vector3.y (cubeVelocity cube) + 0.5 * (Rabs vel * 1.5 + 0.2) /\
  (Vector3.x (cubeVelocity (pushCube worldPos vel cube)) - Vector3.x (cubeVelocity cube))
  * (Vector3.x (cubeVelocity (pushCube worldPos vel cube)) - Vector3.x (cubeVelocity cube))
  + (Vector3.z (cubeVelocity (pushCube worldPos vel cube)) - Vector3.z (cubeVelocity cube))
    * (Vector3.z (cubeVelocity (pushCube worldPos vel cube)) - Vector3.z (cubeVelocity cube))
  <= (Rabs vel * 1.5 + 0.2) * (Rabs vel * 1.5 + 0.2).
Proof.
  intros Hf Hd. pose proof (Rabs_pos vel) as Hk.
  unfold pushCube. rewrite Hf. cbv zeta.
  destruct (Rlt_dec _ _) as [_|Hn]; [|contradiction].
  cbn [cubeVelocity].
  pose proof (normalize_planar_le_1 (Vector3.add (position cube) worldPos)) as Hn.
  set (n := Vector3.normalize (Vector3.add (position cube) worldPos)) in *.
  unfold Vector3.add at 1 2 3 4 5, Vector3.multiplyScalar, Vector3.set_y.
  cbn [Vector3.x Vector3.y Vector3.z].
  repeat split; try lra.
  set (k := Rabs vel * 1.5 + 0.2) in *.
  replace (Vector3.x (cubeVelocity cube) + Vector3.x n * k - Vector3.x (cubeVelocity cube))
    with (Vector3.x n * k) by lra.
  replace (Vector3.z (cubeVelocity cube) + Vector3.z n * k - Vector3.z (cubeVelocity cube))
    with (Vector3.z n * k) by lra.
  assert (0 <= k * k) by nra. nra.
Qed.

Lemma contact_impulse_witness :
  Vector3.y (cubeVelocity (pushCube (Vector3.mk 0 0 0) 0 (scenarioB (Vector3.mk 0 0 0))))
    = 0 + 0.5 * (Rabs 0 * 1.5 + 0.2).
Proof.
  apply (contact_impulse (Vector3.mk 0 0 0) 0 (scenarioB (Vector3.mk 0 0 0))).
  - reflexivity.
  - pose proof (scenarioB_planar_distance (Vector3.mk 0 0 0)) as Hd.
    cbv zeta in Hd. rewrite Hd. lra.
Defined.

(** ** The cube integrator and the respawn of the cubes *)

Lemma cubeFrame_alive (state : CubeState) :
  fallen state = false ->
  fallen (cubeFrame state) = false /\ 1 <= Vector3.y (position (cubeFrame state)).
Proof.
  intros Hf. unfold cubeFrame, groundLevel. rewrite Hf. cbv zeta.
  destruct (Rlt_dec _ 1) as [Hlt|Hge]; cbn [position fallen Vector3.set_y Vector3.y].
  - destruct (Rlt_dec 1 (-20)); [lra|]. split; [reflexivity | lra].
  - destruct (Rlt_dec _ (-20)); [lra|]. split; [reflexivity | lra].
Qed.

(** X12.  The cube integrator never marks a cube as fallen: the ground
    collision puts every live cube back to height >= 1 before the test
    [position.y < -20] is made, and a fallen cube is returned as it is. *)
Theorem cubeFrame_never_falls (state : CubeState) :
  fallen (cubeFrame state) = fallen state /\
  (if fallen state then cubeFrame state = state
   else 1 <= Vector3.y (position (cubeFrame state))).
Proof.
  destruct (fallen state) eqn:Hf.
  - unfold cubeFrame. rewrite Hf. split; [exact Hf | reflexivity].
  - apply cubeFrame_alive, Hf.
Qed.

Lemma handleRespawnFrom_aboveGround (random : nat -> R) (n : nat)
    (cubes : list CubeState) :
  List.length (handleRespawnFrom random n cubes) = List.length cubes /\
  Forall cubeAboveGround (handleRespawnFrom random n cubes).
Proof.
  revert n. induction cubes as [|c cubes IH]; intros n; cbn [handleRespawnFrom List.length].
  - split; [reflexivity | constructor].
  - destruct (IH (S (S n))) as [Hl Hp]. split; [now rewrite Hl|].
    constructor; [|exact Hp]. split; cbn; [reflexivity | lra].
Qed.

Lemma cubeEvent_aboveGround (e : CubeEvent) (cubes : list CubeState) :
  Forall cubeAboveGround cubes ->
  List.length (cubeEvent e cubes) = List.length cubes /\
  Forall cubeAboveGround (cubeEvent e cubes).
Proof.
  intros H. destruct e as [|worldPos vel|random]; cbn [cubeEvent].
  - split; [apply length_map|]. apply Forall_map.
    eapply Forall_impl; [|exact H]. intros c [Hf _]. apply cubeFrame_alive, Hf.
  - unfold cubeCollisions. split; [apply length_map|]. apply Forall_map.
    eapply Forall_impl; [|exact H]. intros c [Hf Hy].
    destruct (pushCube_frame worldPos vel c) as (Hp & Hf').
    split; [congruence | rewrite Hp; exact Hy].
  - apply handleRespawnFrom_aboveGround.
Qed.

Lemma initialCubes_aboveGround (v : Variant) (random : nat -> R) :
  List.length (initialCubes v random) = 40%nat /\
  Forall cubeAboveGround (initialCubes v random).
Proof.
  unfold initialCubes. split; [rewrite length_map; apply length_seq|].
  apply Forall_map, Forall_forall. intros i _. split; cbn; [reflexivity | lra].
Qed.

(** X13.  No cube is ever marked fallen or sinks below the ground level:
    whatever sequence of cube frames, collision passes and respawns follows
    the creation of the 40 cubes, there are still 40 cubes, none is marked
    fallen, and each is at height >= 1.  Nothing is said of x and z: the
    cube frame has no edge test, so a cube pushed past the rim of the
    platform keeps sliding at height 1. *)
Theorem cubes_never_fall (v : Variant) (random : nat -> R) (es : list CubeEvent) :
  List.length (cubeEvents es (initialCubes v random)) = 40%nat /\
  Forall (fun cube => fallen cube = false /\ 1 <= Vector3.y (position cube))
         (cubeEvents es (initialCubes v random)).
Proof.
  destruct (initialCubes_aboveGround v random) as [Hl Hp].
  revert Hl Hp. generalize (initialCubes v random).
  unfold cubeEvents. induction es as [|e es IH]; intros cubes Hl Hp; cbn [fold_left].
  - split; assumption.
  - destruct (cubeEvent_aboveGround e cubes Hp) as [Hl' Hp'].
    apply IH; [congruence | exact Hp'].
Qed.

(** X14.  A live cube lying on the ground (height 1, not moving upwards)
    stays on the ground: after a frame it is at height 1 with no vertical
    velocity, it has slid by 0.98 times its horizontal velocity, and that
    velocity has shrunk by the factor 0.98 * 0.95.  A cube at rest stays
    where it is. *)
Theorem cube_on_ground_slides (state : CubeState) :
  fallen state = false ->
  Vector3.y (position state) = 1 ->
  Vector3.y (cubeVelocity state) <= 0 ->
  cubeFrame state
    = mkCube (Vector3.mk (Vector3.x (position state) + Vector3.x (cubeVelocity state) * 0.98)
                         1
                         (Vector3.z (position state) + Vector3.z (cubeVelocity state) * 0.98))
             (Vector3.mk (Vector3.x (cubeVelocity state) * 0.98 * 0.95)
                         0
                         (Vector3.z (cubeVelocity state) * 0.98 * 0.95))
             false.
Proof.
  intros Hf Hy Hv. unfold cubeFrame, groundLevel, lunarGravity, airFriction.
  rewrite Hf. cbv zeta.
  unfold Vector3.add, Vector3.multiplyScalar, Vector3.set_y.
  cbn [Vector3.x Vector3.y Vector3.z]. rewrite Hy.
  destruct (Rlt_dec _ 1) as [_|Hn]; [|exfalso; apply Hn; lra].
  cbn [Vector3.y]. destruct (Rlt_dec 1 (-20)); [lra|]. reflexivity.
Qed.

Lemma cube_on_ground_slides_witness :
  cubeFrame (mkCube (Vector3.mk 3 1 4) (Vector3.mk 0 0 0) false)
    = mkCube (Vector3.mk (3 + 0 * 0.98) 1 (4 + 0 * 0.98))
             (Vector3.mk (0 * 0.98 * 0.95) 0 (0 * 0.98 * 0.95)) false.
Proof.
  apply (cube_on_ground_slides (mkCube (Vector3.mk 3 1 4) (Vector3.mk 0 0 0) false)).
  - reflexivity.
  - reflexivity.
  - cbn [cubeVelocity Vector3.y]. lra.
Defined.

(** X15.  Respawning the cubes, with [Math.random] returning numbers in
    [0, 1): the number of cubes is kept, and whatever they were before,
    every cube is live again, at rest, at height 1, with x and z in
    [-90, 90). *)
Theorem handleRespawn_resets (random : nat -> R) (cubes : list CubeState) :
  (forall n, 0 <= random n < 1) ->
  List.length (handleRespawn random cubes) = List.length cubes /\
  Forall (fun cube =>
            fallen cube = false /\
            cubeVelocity cube = Vector3.mk 0 0 0 /\
            Vector3.y (position cube) = 1 /\
            -90 <= Vector3.x (position cube) < 90 /\
            -90 <= Vector3.z (position cube) < 90)
         (handleRespawn random cubes).
Proof.
  intros Hr. unfold handleRespawn. generalize 0%nat.
  induction cubes as [|c cubes IH]; intros n; cbn [handleRespawnFrom List.length].
  - split; [reflexivity | constructor].
  - destruct (IH (S (S n))) as [Hl Hp]. split; [now rewrite Hl|].
    constructor; [|exact Hp].
    pose proof (Hr n). pose proof (Hr (S n)).
    cbn [fallen cubeVelocity position Vector3.x Vector3.y Vector3.z].
    repeat split; lra.
Qed.

Lemma handleRespawn_resets_witness :
  List.length (handleRespawn (fun _ => 0.25) [scenarioB (Vector3.mk 1 2 3)]) = 1%nat.
Proof.
  apply (handleRespawn_resets (fun _ => 0.25) [scenarioB (Vector3.mk 1 2 3)]).
  intros n. lra.
Defined.

(** ** Keyboard *)

Lemma keyWrite_fields (b : bool) (code : string) (k : Keys.t) :
  keyWrite b code k
    = Keys.mk
        (if String.eqb code "ArrowUp" || String.eqb code "KeyW"
         then b else Keys.forward k)
        (if String.eqb code "ArrowDown" || String.eqb code "KeyS"
         then b else Keys.backward k)
        (if String.eqb code "ArrowLeft" || String.eqb code "KeyA"
         then b else Keys.left k)
        (if String.eqb code "ArrowRight" || String.eqb code "KeyD"
         then b else Keys.right k)
        (if String.eqb code "Space" then b else Keys.brake k).
Proof.
  unfold keyWrite.
  destruct (String.eqb code "ArrowUp" || String.eqb code "KeyW");
    destruct (String.eqb code "ArrowDown" || String.eqb code "KeyS");
    destruct (String.eqb code "ArrowLeft" || String.eqb code "KeyA");
    destruct (String.eqb code "ArrowRight" || String.eqb code "KeyD");
    destruct (String.eqb code "Space"); destruct k; reflexivity.
Qed.

(** X16.  Keys are not reference counted.  If two key codes are bound to
    the same control (they have the same effect on an idle keyboard), then
    releasing one undoes the press of the other whatever else is held: with
    W and ArrowUp both down, releasing either stops the throttle.  In
    particular a key press followed by its release restores an idle
    keyboard. *)
Theorem release_undoes_any_alias (code code' : string) (k : Keys.t) :
  keydown code Keys.none = keydown code' Keys.none ->
  keyup code' (keydown code k) = keyup code' k.
Proof.
  unfold keydown, keyup. rewrite !keyWrite_fields.
  cbn [Keys.none Keys.forward Keys.backward Keys.left Keys.right Keys.brake].
  intros H. injection H as H1 H2 H3 H4 H5.
  destruct (String.eqb code "ArrowUp" || String.eqb code "KeyW"),
           (String.eqb code' "ArrowUp" || String.eqb code' "KeyW"); try discriminate;
  destruct (String.eqb code "ArrowDown" || String.eqb code "KeyS"),
           (String.eqb code' "ArrowDown" || String.eqb code' "KeyS"); try discriminate;
  destruct (String.eqb code "ArrowLeft" || String.eqb code "KeyA"),
           (String.eqb code' "ArrowLeft" || String.eqb code' "KeyA"); try discriminate;
  destruct (String.eqb code "ArrowRight" || String.eqb code "KeyD"),
           (String.eqb code' "ArrowRight" || String.eqb code' "KeyD"); try discriminate;
  destruct (String.eqb code "Space"), (String.eqb code' "Space"); try discriminate;
  reflexivity.
Qed.

Lemma release_undoes_any_alias_witness :
  keyup "KeyW" (keydown "ArrowUp" keysForwardLeft) = keyup "KeyW" keysForwardLeft /\
  Keys.forward (keyup "KeyW" (keydown "ArrowUp" (keydown "KeyW" Keys.none))) = false.
Proof.
  split; [|reflexivity].
  apply (release_undoes_any_alias "ArrowUp" "KeyW" keysForwardLeft). reflexivity.
Defined.

Lemma actionWrite_keyWrite (b : bool) (code : string) (a : Actions) :
  actionKeys (actionWrite b code a) = keyWrite b code (actionKeys a) /\
  actReset (actionWrite b code a)
    = (if String.eqb code "KeyR" then b else actReset a).
Proof.
  rewrite keyWrite_fields. unfold actionWrite, actionKeys.
  cbn [Keys.forward Keys.backward Keys.left Keys.right Keys.brake].
  destruct (String.eqb_spec code "ArrowUp") as [->|_]; [split; reflexivity|].
  destruct (String.eqb_spec code "KeyW") as [->|_]; [split; reflexivity|].
  destruct (String.eqb_spec code "ArrowDown") as [->|_]; [split; reflexivity|].
  destruct (String.eqb_spec code "KeyS") as [->|_]; [split; reflexivity|].
  destruct (String.eqb_spec code "ArrowLeft") as [->|_]; [split; reflexivity|].
  destruct (String.eqb_spec code "KeyA") as [->|_]; [split; reflexivity|].
  destruct (String.eqb_spec code "ArrowRight") as [->|_]; [split; reflexivity|].
  destruct (String.eqb_spec code "KeyD") as [->|_]; [split; reflexivity|].
  destruct (String.eqb_spec code "Space") as [->|_]; [split; reflexivity|].
  cbn [orb]. destruct (String.eqb code "KeyR"); destruct a; split; reflexivity.
Qed.

(** X17.  The [useKeyboard] hook and the controller's own window listeners
    implement the same bindings: on the five driving keys, the hook's
    [switch] and the listeners' chain of [if]s compute the same key state
    for every key code, on press and on release; the hook's extra [reset]
    flag is written by KeyR only. *)
Theorem hook_agrees_with_listeners (code : string) (a : Actions) :
  actionKeys (handleKeyDown code a) = keydown code (actionKeys a) /\
  actionKeys (handleKeyUp code a) = keyup code (actionKeys a) /\
  actReset (handleKeyDown code a) = (if String.eqb code "KeyR" then true else actReset a) /\
  actReset (handleKeyUp code a) = (if String.eqb code "KeyR" then false else actReset a).
Proof.
  unfold handleKeyDown, handleKeyUp, keydown, keyup.
  destruct (actionWrite_keyWrite true code a) as [H1 H2].
  destruct (actionWrite_keyWrite false code a) as [H3 H4].
  repeat split; assumption.
Qed.

(** ** Camera *)

Lemma rigEvent_pitch (v : Variant) (e : RigEvent) (rig : Rig) :
  0.05 <= orbitY rig <= 0.5 -> 0.05 <= orbitY (rigEvent v e rig) <= 0.5.
Proof.
  intros H. destruct e as [| |mx my|dt s]; cbn [rigEvent]; try exact H.
  unfold handleMouseMove. destruct (isDragging rig); [|exact H].
  cbn [orbitY]. apply clamp_bounds. lra.
Qed.

(** X18.  The camera pitch never leaves [0.05, 0.5]: whatever sequence of
    mouse presses, releases, moves and frames happens after mounting, in
    every revision. *)
Theorem camera_pitch_in_band (v : Variant) (es : list RigEvent) :
  0.05 <= orbitY (rigEvents v es (initialRig v)) <= 0.5.
Proof.
  assert (H0 : 0.05 <= orbitY (initialRig v) <= 0.5)
    by (destruct v; cbn [initialRig orbitY]; lra).
  revert H0. generalize (initialRig v). unfold rigEvents.
  induction es as [|e es IH]; intros rig H; cbn [fold_left]; [exact H|].
  apply IH, rigEvent_pitch, H.
Qed.

(** X19.  The camera yaw follows the drag linearly and without bound: a
    series of mouse moves while the button is down subtracts 0.005 times
    the total horizontal movement (100 pixels turn the camera by 0.5 rad,
    whatever the frame time); without the button down the moves change
    nothing at all. *)
Theorem drag_yaw_accumulates (moves : list (R * R)) (rig : Rig) :
  isDragging (dragMoves moves rig) = isDragging rig /\
  orbitX (dragMoves moves rig)
    = (if isDragging rig then orbitX rig - 0.005 * sumMovementX moves else orbitX rig) /\
  (if isDragging rig then True else dragMoves moves rig = rig).
Proof.
  unfold dragMoves. revert rig.
  induction moves as [|[mx my] moves IH]; intros rig; cbn [fold_left sumMovementX fold_right].
  - repeat split; destruct (isDragging rig); try reflexivity; try exact I; lra.
  - destruct (IH (handleMouseMove mx my rig)) as (Hd & Hx & Hid).
    unfold handleMouseMove in *. cbn [fst snd] in *.
    destruct (isDragging rig) eqn:E; cbn [isDragging orbitX] in *.
    + rewrite Hd, Hx. repeat split; try exact I.
      fold (sumMovementX moves). lra.
    + rewrite E in *. rewrite Hd, Hx. repeat split. exact Hid.
Qed.

Lemma lerp_between (x y t lo hi : R) :
  0 <= t <= 1 -> lo <= x <= hi -> lo <= y <= hi ->
  lo <= MathUtils.lerp x y t <= hi.
Proof. intros Ht Hx Hy. unfold MathUtils.lerp. split; nra. Qed.

(** X20.  The camera section of a frame is stable for frame times up to 1/3
    second: with the speed in [-0.6, 1.2], the camera distance stays in
    [3.75, 7.5] (5 - 1.25 when reversing, 5 + 2.5 at full speed) once it is
    there, and the yaw offset never grows nor changes sign (it decays
    towards 0 when the mouse is not dragging). *)
Theorem camera_frame_stable (v : Variant) (dt : R) (s : Sim) (rig : Rig) :
  0 <= dt <= 1 / 3 ->
  - (1.2 * 0.5) <= velocity s <= 1.2 ->
  3.75 <= cameraDist rig <= 7.5 ->
  3.75 <= cameraDist (cameraRig v dt s rig) <= 7.5 /\
  Rabs (orbitX (cameraRig v dt s rig)) <= Rabs (orbitX rig) /\
  0 <= orbitX (cameraRig v dt s rig) * orbitX rig.
Proof.
  intros Hdt Hv Hd. unfold cameraRig. cbn [cameraDist orbitX]. split; [|split].
  - apply lerp_between; [lra | exact Hd |]. unfold maxSpeed. lra.
  - destruct (isDragging rig); cbn [negb]; [lra|].
    unfold MathUtils.lerp, Rabs. repeat destruct (Rcase_abs _); nra.
  - destruct (isDragging rig); cbn [negb]; [nra|].
    unfold MathUtils.lerp. nra.
Qed.

Lemma camera_frame_stable_witness :
  3.75 <= cameraDist (cameraRig Highway (1 / 60) (cruising 1) (initialRig Highway)) <= 7.5.
Proof.
  apply (camera_frame_stable Highway (1 / 60) (cruising 1) (initialRig Highway)).
  - lra.
  - cbn [cruising velocity]. lra.
  - cbn [initialRig cameraDist]. lra.
Defined.

(** ** The infinite road *)

Lemma Forall2_In_l {A B : Type} (P : A -> B -> Prop) (l1 : list A) (l2 : list B) (a : A) :
  Forall2 P l1 l2 -> In a l1 -> exists b, In b l2 /\ P a b.
Proof.
  induction 1 as [|x y l1 l2 Hxy _ IH]; intros Hin; [contradiction|].
  destruct Hin as [->|Hin].
  - exists y. split; [left; reflexivity | exact Hxy].
  - destruct (IH Hin) as (b & Hb & HP). exists b. split; [right; exact Hb | exact HP].
Qed.

Lemma Forall2_map_r {A B : Type} (P Q : A -> B -> Prop) (f : B -> B)
    (l1 : list A) (l2 : list B) :
  (forall a b, P a b -> Q a (f b)) ->
  Forall2 P l1 l2 -> Forall2 Q l1 (map f l2).
Proof.
  intros HPQ. induction 1; cbn [map]; constructor; auto.
Qed.

Lemma INR_close_eq (m n : nat) : -1 < INR m - INR n < 1 -> m = n.
Proof.
  intros [Hlo Hhi].
  destruct (Nat.lt_trichotomy m n) as [Hlt|[Heq|Hgt]]; [|exact Heq|].
  - apply (le_INR (S m) n) in Hlt. rewrite S_INR in Hlt. lra.
  - apply (le_INR (S n) m) in Hgt. rewrite S_INR in Hgt. lra.
Qed.

Lemma initialRoad_invariant : roadInvariant 0 initialRoad.
Proof.
  split; [lra|]. unfold initialRoad, SEGMENT_COUNT, SEGMENT_SIZE.
  assert (H : forall l, Forall (fun i => (i < 15)%nat) l ->
                        Forall2 (fun i groupZ =>
                                   (exists q : nat, groupZ = - INR i * 20 - 300 * INR q) /\
                                   -280 <= 0 + groupZ <= 20)
                                l (map (fun i => - INR i * 20) l)).
  { induction 1 as [|i l Hi _ IH]; cbn [map]; constructor; [|exact IH].
    split; [exists 0%nat; cbn [INR]; lra|].
    pose proof (pos_INR i). apply le_INR in Hi. rewrite S_INR in Hi.
    replace (INR 15) with 15 in Hi by (cbn [INR]; lra). lra. }
  apply H. apply Forall_forall. intros i Hi. apply in_seq in Hi. lia.
Qed.

Lemma roadFrame_invariant (anchorZ d : R) (groups : list R) :
  0 <= d <= 20 ->
  roadInvariant anchorZ groups ->
  roadInvariant (anchorZ + d) (roadFrame (anchorZ + d) groups).
Proof.
  intros Hd [Ha HF]. split; [lra|]. unfold roadFrame.
  eapply Forall2_map_r; [|exact HF].
  intros i g [(q & Hq) Hw]. cbv beta.
  unfold recycleZ, TOTAL_LENGTH, SEGMENT_SIZE, SEGMENT_COUNT.
  replace (INR 15) with 15 by (cbn [INR]; lra).
  destruct (Rlt_dec 20 (anchorZ + d + g)).
  - split; [exists (S q); rewrite S_INR; lra | lra].
  - split; [exists q; exact Hq | lra].
Qed.

Lemma roadReachable_invariant (anchorZ : R) (groups : list R) :
  roadReachable anchorZ groups -> roadInvariant anchorZ groups.
Proof.
  induction 1 as [|anchorZ d groups _ IH Hd].
  - exact initialRoad_invariant.
  - apply roadFrame_invariant; [exact Hd | exact IH].
Qed.

Lemma nearest_segment_index (c : R) :
  0 <= c -> exists n : nat, -10 <= c - 20 * INR n < 10.
Proof.
  intros Hc. destruct (archimed (c / 20 - 1 / 2)) as [Hup Hdown].
  set (N := up (c / 20 - 1 / 2)) in *.
  assert (HN : (0 <= N)%Z).
  { assert (IZR (-1) < IZR N) by lra. apply lt_IZR in H. lia. }
  exists (Z.to_nat N). rewrite INR_IZR_INZ, Z2Nat.id by exact HN. lra.
Qed.

Lemma roadInvariant_covers (anchorZ d : R) (groups : list R) :
  roadInvariant anchorZ groups ->
  0 <= d <= 20 ->
  exists groupZ, In groupZ groups /\ -10 <= anchorZ + d + groupZ <= 10.
Proof.
  intros [Ha HF] Hd.
  destruct (nearest_segment_index (anchorZ + d)) as (n & Hn); [lra|].
  pose proof (Nat.div_mod_eq n 15) as Hdm.
  assert (Hi : (n mod 15 < 15)%nat) by (apply Nat.mod_upper_bound; lia).
  set (i := (n mod 15)%nat) in *. set (Q := (n / 15)%nat) in *.
  assert (HnR : INR n = 15 * INR Q + INR i).
  { rewrite Hdm, plus_INR, mult_INR. replace (INR 15) with 15 by (cbn [INR]; lra).
    reflexivity. }
  assert (Hin : In i (seq 0 15)) by (apply in_seq; lia).
  destruct (Forall2_In_l _ _ _ i HF Hin) as (g & Hg & (q & Hq) & Hw).
  exists g. split; [exact Hg|].
  assert (HQq : Q = q) by (apply INR_close_eq; lra).
  subst q. lra.
Qed.

(** X21.  Driving forwards on the highway, the road never runs out ahead
    of the car, but it is only 300 wide.  The anchor advancing in z by at
    most one segment length (20) per frame and the road recycling after
    each advance, there are always 15 segment groups, and at every moment -
    after the recycling and also after the anchor's next advance, when the
    controller casts its ray - some segment's ground plane lies under the
    car at the origin exactly when the anchor's x is within 150 of it.
    Once the car has drifted more than 150 sideways, no plane is under it. *)
Theorem road_always_under_car (anchorX anchorZ d : R) (groups : list R) :
  roadReachable anchorZ groups ->
  0 <= d <= 20 ->
  List.length groups = 15%nat /\
  ((exists groupZ, In groupZ groups /\
                   terrainPlaneCovers anchorX (anchorZ + d) groupZ 0 0)
   <-> -150 <= anchorX <= 150).
Proof.
  intros Hreach Hd. pose proof (roadReachable_invariant _ _ Hreach) as Hinv.
  split.
  - destruct Hinv as [_ HF]. apply Forall2_length in HF.
    rewrite <- HF. apply length_seq.
  - unfold terrainPlaneCovers, SEGMENT_SIZE. split.
    + intros (groupZ & _ & Hx & _). lra.
    + intros Hx.
      destruct (roadInvariant_covers anchorZ d groups Hinv Hd) as (groupZ & Hin & Hz).
      exists groupZ. split; [exact Hin|]. lra.
Qed.

Lemma road_always_under_car_witness :
  List.length (roadFrame (0 + 1.2) initialRoad) = 15%nat /\
  ((exists groupZ, In groupZ (roadFrame (0 + 1.2) initialRoad) /\
                   terrainPlaneCovers 3 (0 + 1.2 + 1.2) groupZ 0 0)
   <-> -150 <= 3 <= 150).
Proof.
  apply (road_always_under_car 3 (0 + 1.2) 1.2 (roadFrame (0 + 1.2) initialRoad)).
  - apply road_frame; [apply road_mounted|]. unfold SEGMENT_SIZE. lra.
  - lra.
Defined.

(** ** Wheel discovery *)

Lemma visitNode_filters (refs : WheelRefs) (child : SceneNode) :
  allWheels (visitNode refs child)
    = allWheels refs ++ filter wheelNode [child] /\
  frontWheels (visitNode refs child)
    = frontWheels refs ++ filter frontNode (filter wheelNode [child]) /\
  rearWheels (visitNode refs child)
    = rearWheels refs ++ filter (fun c => negb (frontNode c)) (filter wheelNode [child]).
Proof.
  unfold visitNode, wheelNode, frontNode. cbn [filter]. cbv zeta.
  destruct (nodeIsMesh child); cbn [andb];
    [|rewrite !app_nil_r; repeat split; reflexivity].
  destruct (includes _ "wheel" || includes _ "tire" || includes _ "rim"
            || includes _ "roue" || includes _ "rad");
    [|rewrite !app_nil_r; repeat split; reflexivity].
  cbn [filter].
  destruct (includes _ "front" || includes _ "fl" || includes _ "fr"
            || includes _ "avant" || includes _ "vorne");
    [cbn [negb allWheels frontWheels rearWheels]; rewrite ?app_nil_r;
     repeat split; reflexivity|].
  destruct (includes _ "rear" || includes _ "rl" || includes _ "rr"
            || includes _ "arriere" || includes _ "hinten");
    [cbn [negb allWheels frontWheels rearWheels]; rewrite ?app_nil_r;
     repeat split; reflexivity|].
  destruct (Rlt_dec 0 (nodePositionZ child));
    cbn [negb allWheels frontWheels rearWheels]; rewrite ?app_nil_r;
    repeat split; reflexivity.
Qed.

Lemma fold_visitNode_filters (nodes : list SceneNode) (refs : WheelRefs) :
  allWheels (fold_left visitNode nodes refs)
    = allWheels refs ++ filter wheelNode nodes /\
  frontWheels (fold_left visitNode nodes refs)
    = frontWheels refs ++ filter frontNode (filter wheelNode nodes) /\
  rearWheels (fold_left visitNode nodes refs)
    = rearWheels refs ++ filter (fun c => negb (frontNode c)) (filter wheelNode nodes).
Proof.
  revert refs. induction nodes as [|child nodes IH]; intros refs; cbn [fold_left].
  - cbn [filter]. rewrite !app_nil_r. repeat split; reflexivity.
  - destruct (IH (visitNode refs child)) as (H1 & H2 & H3).
    destruct (visitNode_filters refs child) as (V1 & V2 & V3).
    rewrite H1, H2, H3, V1, V2, V3, <- !app_assoc.
    change (child :: nodes) with ([child] ++ nodes).
    rewrite !filter_app. repeat split; reflexivity.
Qed.

Lemma filter_partition_length {A : Type} (f : A -> bool) (l : list A) :
  List.length l
  = (List.length (filter f l) + List.length (filter (fun a => negb (f a)) l))%nat.
Proof.
  induction l as [|a l IH]; [reflexivity|]. cbn [filter List.length].
  destruct (f a); cbn [negb List.length]; lia.
Qed.

(** X22.  The wheel scan of the Porsche model sorts every wheel it finds
    into exactly one of the front and rear lists, in traversal order: the
    wheels are the mesh nodes with a wheel-like name, the front list and the
    rear list are the wheels that pass, respectively fail, the front test,
    and their sizes add up to the number of wheels.  So the two lists are
    both empty only when no wheel was found at all, and the frame
    callback's fallback loop over all wheels never has anything to turn. *)
Theorem wheels_split_front_rear (nodes : list SceneNode) :
  allWheels (findWheels nodes) = filter wheelNode nodes /\
  frontWheels (findWheels nodes) = filter frontNode (allWheels (findWheels nodes)) /\
  rearWheels (findWheels nodes)
    = filter (fun c => negb (frontNode c)) (allWheels (findWheels nodes)) /\
  List.length (allWheels (findWheels nodes))
    = (List.length (frontWheels (findWheels nodes))
       + List.length (rearWheels (findWheels nodes)))%nat /\
  (frontWheels (findWheels nodes) = [] /\ rearWheels (findWheels nodes) = []
   <-> allWheels (findWheels nodes) = []).
Proof.
  unfold findWheels.
  destruct (fold_visitNode_filters nodes (mkWheelRefs [] [] [])) as (H1 & H2 & H3).
  cbn [allWheels frontWheels rearWheels app] in H1, H2, H3.
  rewrite H1, H2, H3.
  pose proof (filter_partition_length frontNode (filter wheelNode nodes)) as Hlen.
  split; [reflexivity|]. split; [reflexivity|]. split; [reflexivity|].
  split; [exact Hlen|]. split.
  - intros [Hf Hr]. rewrite Hf, Hr in Hlen. cbn [List.length] in Hlen.
    destruct (filter wheelNode nodes); [reflexivity | discriminate].
  - intros ->. split; reflexivity.
Qed.

(** ** The mountains beside the road *)

(** X23.  The vertex loop of the looping terrain runs on the position
    attribute of a plane geometry, whose vertices all lie in the local plane
    z = 0, and reads the noise at the vertex's z.  So the noise is the
    constant sin 0 * 10 + cos 0 * 5 = 5: the loop keeps every vertex's x
    and z, leaves the vertices within 30 of the geometry's axis alone, and
    overwrites the y of every other vertex - its place along the plane -
    with (|x| - 30) / 2 + 5, whatever that place was.  The written value
    depends on x alone and is more than 5; it does not vary along the
    plane. *)
Theorem mountain_profile_on_plane (pos : list Vector3.t) :
  Forall (fun p => Vector3.z p = 0) pos ->
  Forall2 (fun p q =>
             Vector3.x q = Vector3.x p /\ Vector3.z q = 0 /\
             if Rlt_dec 30 (Rabs (Vector3.x p))
             then Vector3.y q = (Rabs (Vector3.x p) - 30) * 0.5 + 5 /\ 5 < Vector3.y q
             else Vector3.y q = Vector3.y p)
          pos (mountainsGeo pos).
Proof.
  unfold mountainsGeo.
  induction 1 as [|p pos Hz _ IH]; cbn [map]; constructor; [|exact IH].
  unfold mountainVertex. cbv zeta.
  destruct (Rlt_dec 30 (Rabs (Vector3.x p))) as [Hx|Hx].
  - cbn [Vector3.set_y Vector3.x Vector3.y Vector3.z].
    rewrite Hz, !Rmult_0_l, sin_0, cos_0.
    rewrite Rmax_right by lra.
    repeat split; lra.
  - repeat split. exact Hz.
Qed.

Lemma mountain_profile_on_plane_witness :
  Forall2 (fun p q =>
             Vector3.x q = Vector3.x p /\ Vector3.z q = 0 /\
             if Rlt_dec 30 (Rabs (Vector3.x p))
             then Vector3.y q = (Rabs (Vector3.x p) - 30) * 0.5 + 5 /\ 5 < Vector3.y q
             else Vector3.y q = Vector3.y p)
          [Vector3.mk 125 1000 0; Vector3.mk 125 (-1000) 0; Vector3.mk 0 10 0]
          (mountainsGeo
             [Vector3.mk 125 1000 0; Vector3.mk 125 (-1000) 0; Vector3.mk 0 10 0]).
Proof.
  apply (mountain_profile_on_plane
           [Vector3.mk 125 1000 0; Vector3.mk 125 (-1000) 0; Vector3.mk 0 10 0]).
  repeat constructor.
Defined.

(** ** The physics-engine car *)

Lemma carFrame_reset (a : Actions) (pos vel rot : Vector3.t) (speed : R)
    (camera : Vector3.t) :
  carResets a pos ->
  carFrame a pos vel rot speed camera
    = mkCarFrame 0 [Vector3.mk 0 2 0] [Vector3.mk 0 0 0] [Vector3.mk 0 0 0]
                 [Vector3.mk 0 0 0] camera None.
Proof.
  intros [Hy|Hr]; unfold carFrame.
  - destruct (Rlt_dec (Vector3.y pos) (-30)); [reflexivity | contradiction].
  - rewrite Hr, orb_true_r. reflexivity.
Qed.

Lemma carFrame_guard (a : Actions) (pos : Vector3.t) :
  ~ carResets a pos ->
  (if Rlt_dec (Vector3.y pos) (-30) then true else false) || actReset a = false.
Proof.
  unfold carResets. intros Hn.
  destruct (Rlt_dec (Vector3.y pos) (-30)) as [Hy|_]; [tauto|].
  destruct (actReset a); [tauto | reflexivity].
Qed.

(** X24.  The physics-engine car keeps its speed in [-9, 30] (30 forwards,
    30 * 0.3 in reverse) from frame to frame, whatever the keys, and every
    frame asks the body for exactly one velocity, whose horizontal part has
    length |speed|.  A reset frame (R pressed, or the body below -30) puts
    the body at (0, 2, 0), commands zero velocity, zero angular velocity
    and zero rotation, zeroes the speed, and returns before the camera and
    the position callback.  Any other frame sets neither position nor
    rotation, commands the body's own vertical velocity (gravity is left to
    the engine) and reports the position and yaw to the callback. *)
Theorem car_speed_envelope (a : Actions) (pos vel rot : Vector3.t) (speed : R)
    (camera : Vector3.t) :
  - 9 <= speed <= 30 ->
  - 9 <= carSpeed (carFrame a pos vel rot speed camera) <= 30 /\
  (exists command,
    velocitySet (carFrame a pos vel rot speed camera) = [command] /\
    Vector3.x command * Vector3.x command + Vector3.z command * Vector3.z command
      = carSpeed (carFrame a pos vel rot speed camera)
        * carSpeed (carFrame a pos vel rot speed camera) /\
    (positionUpdate (carFrame a pos vel rot speed camera) = None
     \/ Vector3.y command = Vector3.y vel)) /\
  (carResets a pos ->
   carSpeed (carFrame a pos vel rot speed camera) = 0 /\
   positionSet (carFrame a pos vel rot speed camera) = [Vector3.mk 0 2 0] /\
   velocitySet (carFrame a pos vel rot speed camera) = [Vector3.mk 0 0 0] /\
   angularVelocitySet (carFrame a pos vel rot speed camera) = [Vector3.mk 0 0 0] /\
   rotationSet (carFrame a pos vel rot speed camera) = [Vector3.mk 0 0 0] /\
   carCamera (carFrame a pos vel rot speed camera) = camera /\
   positionUpdate (carFrame a pos vel rot speed camera) = None) /\
  (~ carResets a pos ->
   positionSet (carFrame a pos vel rot speed camera) = [] /\
   rotationSet (carFrame a pos vel rot speed camera) = [] /\
   positionUpdate (carFrame a pos vel rot speed camera)
     = Some (pos, Vector3.y rot) /\
   exists command,
     velocitySet (carFrame a pos vel rot speed camera) = [command] /\
     Vector3.y command = Vector3.y vel).
Proof.
  intros Hs.
  assert (Hreset : carResets a pos ->
                   carFrame a pos vel rot speed camera
                   = mkCarFrame 0 [Vector3.mk 0 2 0] [Vector3.mk 0 0 0]
                                [Vector3.mk 0 0 0] [Vector3.mk 0 0 0] camera None)
    by apply carFrame_reset.
  assert (Hguard := carFrame_guard a pos).
  split; [|split; [|split]].
  - unfold carFrame.
    destruct ((if Rlt_dec (Vector3.y pos) (-30) then true else false) || actReset a).
    + cbn [carSpeed]. lra.
    + cbv zeta. cbn [carSpeed].
      destruct (actForward a), (actBackward a), (actBrake a);
        unfold Rmin, Rmax; repeat destruct (Rle_dec _ _); lra.
  - unfold carFrame.
    destruct ((if Rlt_dec (Vector3.y pos) (-30) then true else false) || actReset a).
    + cbn [carSpeed velocitySet positionUpdate].
      exists (Vector3.mk 0 0 0). cbn [Vector3.x Vector3.z].
      repeat split; [lra | left; reflexivity].
    + cbv zeta. cbn [carSpeed velocitySet positionUpdate].
      set (speed' := if actBrake a then _ else _).
      eexists. split; [reflexivity|]. cbn [Vector3.x Vector3.y Vector3.z].
      split; [|right; reflexivity].
      pose proof (sin2_cos2 (Vector3.y rot)) as Hsc. unfold Rsqr in Hsc.
      replace (- sin (Vector3.y rot) * speed' * (- sin (Vector3.y rot) * speed')
               + - cos (Vector3.y rot) * speed' * (- cos (Vector3.y rot) * speed'))
        with ((sin (Vector3.y rot) * sin (Vector3.y rot)
               + cos (Vector3.y rot) * cos (Vector3.y rot)) * (speed' * speed'))
        by ring.
      rewrite Hsc. ring.
  - intros Hc. rewrite (Hreset Hc).
    cbn [carSpeed positionSet velocitySet angularVelocitySet rotationSet carCamera
         positionUpdate].
    repeat split.
  - intros Hc. unfold carFrame. rewrite (Hguard Hc). cbv zeta.
    cbn [positionSet rotationSet positionUpdate velocitySet].
    repeat split. eexists. split; [reflexivity|]. reflexivity.
Qed.

Lemma car_speed_envelope_witness :
  (- 9 <= carSpeed (carFrame (mkActions true false false false false false)
                             (Vector3.mk 0 1 0) (Vector3.mk 0 0 0) (Vector3.mk 0 0 0)
                             29.8 (Vector3.mk 0 6 12)) <= 30) /\
  carSpeed (carFrame (mkActions true false false false false true)
                     (Vector3.mk 0 1 0) (Vector3.mk 0 0 0) (Vector3.mk 0 0 0)
                     29.8 (Vector3.mk 0 6 12)) = 0.
Proof.
  split.
  - apply (car_speed_envelope (mkActions true false false false false false)
             (Vector3.mk 0 1 0) (Vector3.mk 0 0 0) (Vector3.mk 0 0 0)
             29.8 (Vector3.mk 0 6 12)).
    lra.
  - refine (proj1 (proj1 (proj2 (proj2
              (car_speed_envelope (mkActions true false false false false true)
                 (Vector3.mk 0 1 0) (Vector3.mk 0 0 0) (Vector3.mk 0 0 0)
                 29.8 (Vector3.mk 0 6 12) _))) _)).
    + lra.
    + right. reflexivity.
Defined.

(** ** Visual physics *)

Lemma visualPhysics_invariant (highway : bool) (k : Keys.t) (dt : R) (s : Sim)
    (vis : Visual) :
  0 <= dt <= 1 / 12 ->
  visualInvariant vis ->
  visualInvariant (visualPhysics highway k dt s vis).
Proof.
  intros Hdt (Hz & Hx & H1 & H2 & H3 & H4 & H5).
  unfold visualInvariant, visualPhysics.
  cbn [modelRotationZ modelRotationX spinFL spinFR spinRL spinRR steerFL steerFR].
  split; [unfold MathUtils.lerp; rewrite Hz; lra|].
  split.
  { apply lerp_between; [lra | exact Hx |].
    destruct highway, (Keys.forward k), (Keys.backward k || Keys.brake k); lra. }
  split; [lra|]. split; [lra|]. split; [lra|]. split; [reflexivity|].
  apply lerp_between; [lra | exact H5 |].
  destruct (Keys.left k), (Keys.right k); lra.
Qed.

(** X25.  The cosmetic state of the Lamborghini revisions stays tame over
    any run with frame times up to 1/12 second: the body never rolls, its
    pitch stays within [-0.01, 0.015], the four wheels always show the same
    spin angle, both front wheels the same steering angle, and that angle
    stays within [-1, 1]. *)
Theorem visual_state_stays_tame (highway : bool) (frames : list (Keys.t * R * Sim)) :
  Forall (fun f => 0 <= snd (fst f) <= 1 / 12) frames ->
  modelRotationZ (visualFrames highway frames initialVisual) = 0 /\
  -0.01 <= modelRotationX (visualFrames highway frames initialVisual) <= 0.015 /\
  spinFL (visualFrames highway frames initialVisual)
    = spinFR (visualFrames highway frames initialVisual) /\
  spinFL (visualFrames highway frames initialVisual)
    = spinRL (visualFrames highway frames initialVisual) /\
  spinFL (visualFrames highway frames initialVisual)
    = spinRR (visualFrames highway frames initialVisual) /\
  steerFL (visualFrames highway frames initialVisual)
    = steerFR (visualFrames highway frames initialVisual) /\
  -1 <= steerFL (visualFrames highway frames initialVisual) <= 1.
Proof.
  intros Hall.
  assert (H0 : visualInvariant initialVisual).
  { unfold visualInvariant, initialVisual.
    cbn [modelRotationZ modelRotationX spinFL spinFR spinRL spinRR steerFL steerFR].
    repeat split; lra. }
  revert H0. generalize initialVisual. unfold visualFrames.
  induction Hall as [|f frames Hf _ IH]; intros vis Hvis; cbn [fold_left].
  - exact Hvis.
  - apply IH, visualPhysics_invariant; assumption.
Qed.

Lemma visual_state_stays_tame_witness :
  -1 <= steerFL (visualFrames false [(keysLeft, 1 / 60, cruising 1)] initialVisual) <= 1.
Proof.
  apply (visual_state_stays_tame false [(keysLeft, 1 / 60, cruising 1)]).
  constructor; [cbn [fst snd]; lra | constructor].
Defined.

(** X26.  Holding left and right together in the bounded Lamborghini
    revision: in a grounded frame that does not respawn, the steering
    cancels out and the heading stays as it was.  The front wheels are
    nevertheless drawn turning left: if the frame time is between 0 and
    1/12 s (so that the lerp factor 12 dt is at most 1) and the drawn angle
    is not beyond +1, the drawn angle does not decrease and does not pass
    +1.  On a longer frame the lerp overshoots +1. *)
Theorem left_and_right_together (f : Frame) (s : Sim) (cubes : list CubeState)
    (vis : Visual) :
  Keys.left (keys f) = true ->
  Keys.right (keys f) = true ->
  isFalling s = false ->
  respawned (useFrame Bounded f s cubes) = false ->
  0 <= delta f <= 1 / 12 ->
  steerFL vis <= 1 ->
  steeringAngle (sim (useFrame Bounded f s cubes)) = steeringAngle s /\
  steerFL vis
  <= steerFL (visualPhysics false (keys f) (delta f) (sim (useFrame Bounded f s cubes)) vis)
  <= 1.
Proof.
  intros Hl Hrt Hf Hr Hdt Hs. split.
  - destruct (useFrame_continued Bounded f s cubes Hr) as (_ & -> & _).
    destruct (movementPhysics_grounded Bounded (keys f) s Hf) as (_ & ->).
    unfold updateSteering. rewrite Hl, Hrt.
    destruct (Rlt_dec 0.01 _); [|reflexivity]. lra.
  - unfold visualPhysics. cbn [steerFL]. rewrite Hl. unfold MathUtils.lerp. nra.
Qed.

Lemma left_and_right_together_witness :
  steeringAngle (sim (useFrame Bounded
                        (frameOf (Keys.mk false false true true false) [terrainHit])
                        (cruising 1) []))
    = steeringAngle (cruising 1) /\
  steerFL initialVisual
  <= steerFL (visualPhysics false
                (keys (frameOf (Keys.mk false false true true false) [terrainHit]))
                (delta (frameOf (Keys.mk false false true true false) [terrainHit]))
                (sim (useFrame Bounded
                        (frameOf (Keys.mk false false true true false) [terrainHit])
                        (cruising 1) []))
                initialVisual)
  <= 1.
Proof.
  apply (left_and_right_together
           (frameOf (Keys.mk false false true true false) [terrainHit])
           (cruising 1) [] initialVisual); try reflexivity.
  - apply useFrame_no_respawn. unfold fallHeight, gravity.
    cbn [cruising carPosition verticalVelocity Vector3.y]. lra.
  - cbn [frameOf delta]. lra.
  - cbn [initialVisual steerFL]. lra.
Defined.

(** Beyond the frame-time premise of X26 the drawn angle passes +1: at 10
    frames per second the lerp factor is 1.2, and the wheels go from 0 to
    1.2 in one frame. *)
Remark drawn_steer_overshoots_on_long_frame :
  steerFL (visualPhysics false (Keys.mk false false true true false) 0.1
                         (cruising 1) initialVisual) = 1.2.
Proof.
  unfold visualPhysics. cbn [steerFL Keys.left initialVisual].
  unfold MathUtils.lerp. lra.
Qed.




Lemma updateAt_keeps {A : Type} (P : A -> Prop) (i : nat) (f : A -> A) (l : list A) :
  (forall a, P a -> P (f a)) ->
  Forall P l ->
  List.length (updateAt i f l) = List.length l /\ Forall P (updateAt i f l).
Proof.
  intros Hf. revert i. induction l as [|a l IH]; intros i Hl; cbn [updateAt].
  - split; [reflexivity | constructor].
  - inversion Hl as [|a' l' Ha Hl']; subst. destruct i as [|i]; cbn [List.length].
    + split; [reflexivity|]. constructor; [apply Hf, Ha | exact Hl'].
    + destruct (IH i Hl') as [Hlen HF]. split; [now rewrite Hlen|].
      constructor; assumption.
Qed.

Lemma forEachMesh_keeps (P : R * R -> Prop) (indices : list nat) (f : R * R -> R * R)
    (meshes : list (R * R)) :
  (forall a, P a -> P (f a)) ->
  Forall P meshes ->
  List.length (forEachMesh indices f meshes) = List.length meshes /\
  Forall P (forEachMesh indices f meshes).
Proof.
  intros Hf. unfold forEachMesh. revert meshes.
  induction indices as [|i indices IH]; intros meshes Hm; cbn [fold_left].
  - split; [reflexivity | exact Hm].
  - destruct (updateAt_keeps P i f meshes Hf Hm) as [Hlen HF].
    destruct (IH _ HF) as [Hlen' HF']. split; [congruence | exact HF'].
Qed.

Lemma porscheVisualPhysics_invariant (refs : WheelIndices) (k : Keys.t) (dt : R)
    (s : Sim) (n : nat) (vis : PorscheVisual) :
  0 <= dt <= 1 / 10 ->
  - (1.2 * 0.5) <= velocity s <= 1.2 ->
  porscheVisualInvariant n vis ->
  porscheVisualInvariant n (porscheVisualPhysics refs k dt s vis).
Proof.
  intros Hdt Hv (Hz & Hx & Hn & Hm).
  unfold porscheVisualInvariant, porscheVisualPhysics. cbv zeta.
  cbn [bodyRotationZ bodyRotationX wheelMeshes].
  split.
  { apply lerp_between; [lra | exact Hz |]. unfold maxSpeed.
    assert (Ha : 0 <= Rabs (velocity s) <= 1.2).
    { split; [apply Rabs_pos|]. unfold Rabs. destruct (Rcase_abs _); lra. }
    destruct (Keys.left k), (Keys.right k); lra. }
  split.
  { apply lerp_between; [lra | exact Hx |].
    destruct (Keys.forward k), (Keys.backward k || Keys.brake k); lra. }
  set (P := fun wheel : R * R => -0.4 <= snd wheel <= 0.4) in *.
  set (spin := wheelRotation vis + velocity s * 2.5).
  assert (Hsteer : forall a, P a ->
            P (spin, MathUtils.lerp (snd a)
                       (if Keys.left k then 0.4 else if Keys.right k then -0.4 else 0)
                       (dt * 10))).
  { intros a Ha. unfold P in *. cbn [snd].
    apply lerp_between; [lra | exact Ha |].
    destruct (Keys.left k), (Keys.right k); lra. }
  assert (Hspin : forall a, P a -> P (spin, snd a)) by (intros a Ha; exact Ha).
  destruct (forEachMesh_keeps P (frontIndices refs) _ (wheelMeshes vis) Hsteer Hm)
    as [L1 F1].
  destruct (forEachMesh_keeps P (rearIndices refs) _ _ Hspin F1) as [L2 F2].
  destruct ((List.length (frontIndices refs) =? 0)%nat
            && (List.length (rearIndices refs) =? 0)%nat).
  - destruct (forEachMesh_keeps P (allIndices refs) _ _ Hspin F2) as [L3 F3].
    split; [congruence | exact F3].
  - split; [congruence | exact F2].
Qed.

(** X28.  The cosmetic state of the Porsche revision stays tame over any run
    with frame times up to 1/10 second and speeds within [-0.6, 1.2]: the
    body leans by at most 0.15, pitches within [-0.03, 0.04], no wheel mesh
    is added or lost, and no wheel is ever steered beyond 0.4 either way -
    whatever meshes the three wheel refs point to. *)
Theorem porsche_visual_stays_tame (refs : WheelIndices)
    (frames : list (Keys.t * R * Sim)) (vis : PorscheVisual) :
  Forall (fun f => 0 <= snd (fst f) <= 1 / 10
                   /\ - (1.2 * 0.5) <= velocity (snd f) <= 1.2) frames ->
  -0.15 <= bodyRotationZ vis <= 0.15 ->
  -0.03 <= bodyRotationX vis <= 0.04 ->
  Forall (fun wheel => -0.4 <= snd wheel <= 0.4) (wheelMeshes vis) ->
  -0.15 <= bodyRotationZ (porscheVisualFrames refs frames vis) <= 0.15 /\
  -0.03 <= bodyRotationX (porscheVisualFrames refs frames vis) <= 0.04 /\
  List.length (wheelMeshes (porscheVisualFrames refs frames vis))
    = List.length (wheelMeshes vis) /\
  Forall (fun wheel => -0.4 <= snd wheel <= 0.4)
         (wheelMeshes (porscheVisualFrames refs frames vis)).
Proof.
  intros Hall Hz Hx Hm.
  assert (H0 : porscheVisualInvariant (List.length (wheelMeshes vis)) vis)
    by (split; [exact Hz | split; [exact Hx | split; [reflexivity | exact Hm]]]).
  revert H0. generalize (List.length (wheelMeshes vis)). intros n.
  clear Hz Hx Hm. revert vis. unfold porscheVisualFrames.
  induction Hall as [|f frames (Hdt & Hv) _ IH]; intros vis Hvis; cbn [fold_left].
  - exact Hvis.
  - apply IH, porscheVisualPhysics_invariant; assumption.
Qed.

Lemma porsche_visual_stays_tame_witness :
  -0.15
  <= bodyRotationZ
       (porscheVisualFrames (mkWheelIndices [0%nat] [1%nat] [0%nat; 1%nat])
          [(keysLeft, 1 / 60, cruising 1)]
          (mkPorscheVisual 0 0 0 [(0, 0); (0, 0)]))
  <= 0.15.
Proof.
  apply (porsche_visual_stays_tame (mkWheelIndices [0%nat] [1%nat] [0%nat; 1%nat])
           [(keysLeft, 1 / 60, cruising 1)]
           (mkPorscheVisual 0 0 0 [(0, 0); (0, 0)])).
  - constructor; [|constructor]. cbn [fst snd cruising velocity]. lra.
  - cbn [bodyRotationZ]. lra.
  - cbn [bodyRotationX]. lra.
  - repeat constructor; cbn [snd]; lra.
Defined.

(** ** Before the first landing *)

Lemma fallOrStick_stick (v : Variant) (dt groundY : R) (s : Sim) :
  isFalling s = false ->
  fallOrStick v dt groundY s
    = (set_carPosition
         (Vector3.set_y
            (match v with
             | Highway => 0
             | _ => MathUtils.lerp (Vector3.y (carPosition s)) groundY (dt * 15)
             end)
            (carPosition s)) s,
       false).
Proof. intros Hf. unfold fallOrStick. rewrite Hf. reflexivity. Qed.

(** X29.  Before the first landing the bounded Lamborghini controller does
    not fall on a raycast miss - and cannot be rescued either: while the
    anchor is within the platform radius, a grounded vehicle that has never
    landed and finds no terrain stays grounded and is not respawned, but its
    height is pulled towards groundY = -100,
    y' = (1 - 15 dt) y + 15 dt (-100), however far below the respawn depth
    -20 it already is. *)
Theorem pending_vehicle_sinks (f : Frame) (s : Sim) (cubes : list CubeState) :
  isFalling s = false ->
  hasLanded s = false ->
  findTerrain (intersects f) = None ->
  anchorDistance (scrolled Bounded f s) <= 400 ->
  respawned (useFrame Bounded f s cubes) = false /\
  isFalling (sim (useFrame Bounded f s cubes)) = false /\
  hasLanded (sim (useFrame Bounded f s cubes)) = false /\
  Vector3.y (carPosition (sim (useFrame Bounded f s cubes)))
    = (1 - delta f * 15) * Vector3.y (carPosition s) + delta f * 15 * (-100).
Proof.
  intros Hf Hl Hm Hd.
  assert (Hsc : isFalling (scrolled Bounded f s) = false).
  { unfold anchorDistance, scrolled in *.
    set (s2 := relativeWorldMovement Bounded (movementPhysics Bounded (keys f) s)) in *.
    destruct (checkBounds_rest Bounded s2) as (_ & _ & _ & _ & Hwp & _).
    rewrite Hwp in Hd.
    assert (Hf2 : isFalling s2 = false).
    { unfold s2.
      destruct (relativeWorldMovement_rest Bounded (movementPhysics Bounded (keys f) s))
        as (_ & _ & -> & _).
      destruct (movementPhysics_rest Bounded (keys f) s) as (-> & _). exact Hf. }
    unfold checkBounds, worldRadius. cbv zeta.
    destruct (Rlt_dec 400 _) as [Hlt|_]; [lra | exact Hf2]. }
  assert (Hmiss : Bounded <> Porsche) by discriminate.
  destruct (miss_before_first_landing_tolerated Bounded f s cubes Hmiss Hsc Hl Hm)
    as (Hr & Hf' & Hl').
  repeat split; try assumption.
  destruct (useFrame_stages Bounded f s cubes) as [-> _].
  assert (Hl'' : hasLanded (scrolled Bounded f s) = false).
  { unfold scrolled.
    destruct (checkBounds_rest Bounded
                (relativeWorldMovement Bounded (movementPhysics Bounded (keys f) s)))
      as (_ & _ & -> & _).
    destruct (relativeWorldMovement_rest Bounded (movementPhysics Bounded (keys f) s))
      as (_ & _ & _ & -> & _).
    destruct (movementPhysics_rest Bounded (keys f) s) as (_ & -> & _). exact Hl. }
  assert (Hp : probed Bounded f s = (scrolled Bounded f s, -100)).
  { unfold probed, groundAlignment. rewrite Hsc, Hm, Hl''. reflexivity. }
  rewrite Hp. cbn [fst snd]. rewrite (fallOrStick_stick Bounded _ _ _ Hsc).
  cbn [fst]. sim_cbn.
  destruct (scrolled_kinematics Bounded f s) as (_ & _ & _ & -> & _).
  unfold MathUtils.lerp. reflexivity.
Qed.

Lemma pending_vehicle_sinks_witness :
  Vector3.y (carPosition (sim (useFrame Bounded (frameOf Keys.none [])
                                        (initial Bounded) [])))
    = (1 - delta (frameOf Keys.none []) * 15) * Vector3.y (carPosition (initial Bounded))
      + delta (frameOf Keys.none []) * 15 * (-100).
Proof.
  apply (pending_vehicle_sinks (frameOf Keys.none []) (initial Bounded) []);
    try reflexivity.
  unfold anchorDistance.
  destruct (scrolled_kinematics Bounded (frameOf Keys.none []) (initial Bounded))
    as (_ & _ & _ & _ & -> & _).
  unfold relativeWorldMovement. sim_cbn.
  destruct (movementPhysics_grounded Bounded (keys (frameOf Keys.none []))
              (initial Bounded) eq_refl) as (-> & _).
  destruct (movementPhysics_rest Bounded (keys (frameOf Keys.none [])) (initial Bounded))
    as (_ & _ & _ & -> & _).
  cbn [initial velocity worldPosition Vector3.zero Vector3.x Vector3.z keys frameOf].
  rewrite (updateVelocity_rest Keys.none eq_refl eq_refl).
  replace ((0 - sin _ * 0) * (0 - sin _ * 0) + (0 - cos _ * 0) * (0 - cos _ * 0))
    with 0 by ring.
  rewrite sqrt_0. lra.
Defined.
